(** * ChVehicleIrrApp: the Irrlicht visualization wrapper for vehicles

    A shallow embedding of [src/chrono_vehicle/utils/ChVehicleIrrApp.cpp]:
    the camera event receiver [ChCameraEventReceiver::OnEvent], the
    constructor of [ChVehicleIrrApp] and its per-frame [Advance].

    Conventions of the embedding.
    - [double] and the single precision types of Irrlicht and irrKlang are
      idealised as exact rationals ([Q]); the narrowing casts [(f32)] and
      [(irrklang::ik_f32)] are then exact.  The one place where rounding
      decides what the code does, the number of iterations of the loop of
      [Advance], is embedded a second time on IEEE 754 binary64 numbers
      ([Binary64]).
    - [ChChaseCamera], [ChVehicle] and [ChPowertrain] are classes whose bodies
      are not in this translation unit.  They are interfaces here (type
      classes); every theorem about the application holds for all their
      implementations.
    - The [while] loop of [Advance] is a fuel-bounded recursion that returns
      [None] when the fuel runs out before the loop condition fails. *)

From Stdlib Require Import QArith Qround Lqa Lia ZArith List Ascii String Bool.
From Stdlib Require PrimFloat SpecFloat FloatOps FloatAxioms.
Import ListNotations.

Set Implicit Arguments.
Generalizable All Variables.

Local Open Scope Q_scope.

(** ** Numbers *)

Definition double := Q.

(** [a < b] on doubles, as a boolean test. *)
Definition ltb (a b : double) : bool :=
  match a ?= b with Lt => true | _ => false end.

(** [std::min<>(a, b)]: [b] when [b < a], otherwise [a]. *)
Definition std_min (a b : double) : double := if ltb b a then b else a.

Record ChVector := mkChVector { vx : double; vy : double; vz : double }.

Record ChQuaternion := mkChQuaternion
  { e0 : double; e1 : double; e2 : double; e3 : double }.

Record ChCoordsys := mkChCoordsys { pos : ChVector; rot : ChQuaternion }.

(** [chrono::CH_C_2PI] of the Chrono core headers. *)
Definition CH_C_2PI : double := 6.283185307179586476925286766559.

(** ** The part of Irrlicht the application touches *)

Module irr.

Definition f32 := Q.

(** The cast [(f32)x]. *)
Definition to_f32 (x : double) : f32 := x.

Inductive EEVENT_TYPE :=
| EET_GUI_EVENT
| EET_MOUSE_INPUT_EVENT
| EET_KEY_INPUT_EVENT
| EET_JOYSTICK_INPUT_EVENT
| EET_LOG_TEXT_EVENT
| EET_USER_EVENT.

(** [EKEY_CODE] is a C enumeration; the codes below are Irrlicht's. *)
Definition EKEY_CODE := Z.

Definition KEY_LEFT  : EKEY_CODE := 0x25%Z.
Definition KEY_UP    : EKEY_CODE := 0x26%Z.
Definition KEY_RIGHT : EKEY_CODE := 0x27%Z.
Definition KEY_DOWN  : EKEY_CODE := 0x28%Z.
Definition KEY_KEY_1 : EKEY_CODE := 0x31%Z.
Definition KEY_KEY_2 : EKEY_CODE := 0x32%Z.
Definition KEY_KEY_3 : EKEY_CODE := 0x33%Z.
Definition KEY_KEY_4 : EKEY_CODE := 0x34%Z.
Definition KEY_KEY_V : EKEY_CODE := 0x56%Z.

Record SKeyInput := mkSKeyInput
  { Char : Z; Key : EKEY_CODE; PressedDown : bool; Shift : bool; Control : bool }.

(** [SEvent]: the event type and, of the union, the member that [OnEvent]
    reads (only after it has seen [EET_KEY_INPUT_EVENT]). *)
Record SEvent := mkSEvent { EventType : EEVENT_TYPE; KeyInput : SKeyInput }.

Definition EEVENT_TYPE_eqb (a b : EEVENT_TYPE) : bool :=
  match a, b with
  | EET_GUI_EVENT, EET_GUI_EVENT
  | EET_MOUSE_INPUT_EVENT, EET_MOUSE_INPUT_EVENT
  | EET_KEY_INPUT_EVENT, EET_KEY_INPUT_EVENT
  | EET_JOYSTICK_INPUT_EVENT, EET_JOYSTICK_INPUT_EVENT
  | EET_LOG_TEXT_EVENT, EET_LOG_TEXT_EVENT
  | EET_USER_EVENT, EET_USER_EVENT => true
  | _, _ => false
  end.

Record vector3df := mkvector3df { X : f32; Y : f32; Z : f32 }.

(** [core::vector3df((f32)v.x, (f32)v.y, (f32)v.z)]. *)
Definition vector3df_of (v : ChVector) : vector3df :=
  mkvector3df (to_f32 (vx v)) (to_f32 (vy v)) (to_f32 (vz v)).

Record ICameraSceneNode := mkICameraSceneNode
  { UpVector : vector3df; Position : vector3df; Target : vector3df }.

Definition setUpVector (v : vector3df) (c : ICameraSceneNode) :=
  mkICameraSceneNode v (Position c) (Target c).
Definition setPosition (v : vector3df) (c : ICameraSceneNode) :=
  mkICameraSceneNode (UpVector c) v (Target c).
Definition setTarget (v : vector3df) (c : ICameraSceneNode) :=
  mkICameraSceneNode (UpVector c) (Position c) v.

(** [addCameraSceneNode(root, position, lookat)]; Irrlicht's default up
    vector is the Y axis. *)
Definition addCameraSceneNode (p l : vector3df) : ICameraSceneNode :=
  mkICameraSceneNode (mkvector3df 0 1 0) p l.

End irr.

(** ** The part of irrKlang the application touches *)

Module irrklang.

Definition ik_f32 := Q.

(** The cast [(irrklang::ik_f32)x]. *)
Definition to_ik_f32 (x : double) : ik_f32 := x.

Record ISound := mkISound { IsPaused : bool; PlaybackSpeed : ik_f32 }.

Definition getIsPaused (s : ISound) : bool := IsPaused s.
Definition setIsPaused (b : bool) (s : ISound) : ISound :=
  mkISound b (PlaybackSpeed s).
Definition setPlaybackSpeed (v : ik_f32) (s : ISound) : ISound :=
  mkISound (IsPaused s) v.

End irrklang.

(** ** Interfaces of the collaborating Chrono classes *)

Module utils.

(** [utils::ChChaseCamera::State]; the four enumerators are the ones
    [OnEvent] names. *)
Inductive State := Chase | Follow | Track | Inside.

Definition State_eqb (a b : State) : bool :=
  match a, b with
  | Chase, Chase | Follow, Follow | Track, Track | Inside, Inside => true
  | _, _ => false
  end.

End utils.

Import utils.

(** The commands of [utils::ChChaseCamera] issued from the keyboard, and the
    label the HUD prints. *)
Class ChChaseCameraControl (Cam : Type) := {
  Zoom : Z -> Cam -> Cam;
  Turn : Z -> Cam -> Cam;
  SetState : State -> Cam -> Cam;
  GetStateName : Cam -> string
}.

(** The per-frame side of [utils::ChChaseCamera].  The camera is constructed
    on the chassis body and reads it at every [Update]; the embedding passes
    the chassis, as it is at the call, to [Update] and [Initialize]. *)
Class ChChaseCameraDynamics (Body Cam : Type) := {
  ChChaseCamera_new : Body -> Cam;
  Initialize : ChVector -> ChCoordsys -> double -> double -> Body -> Cam -> Cam;
  Update : Body -> double -> Cam -> Cam;
  GetCameraPos : Cam -> ChVector;
  GetTargetPos : Cam -> ChVector
}.

Class ChVehicle (Body Veh : Type) := {
  GetChassis : Veh -> Body;
  GetLocalDriverCoordsys : Veh -> ChCoordsys;
  LogConstraintViolations : Veh -> Veh
}.

Class ChPowertrain (Ptr : Type) := {
  GetMotorSpeed : Ptr -> double
}.

(** ** The application *)

(** The data members of [ChVehicleIrrApp] that the functions below read or
    write.  [m_car] and [m_powertrain] are references in the source: the
    fields hold the referenced objects as they are at the call.
    [active_camera] is the scene manager's active camera node, owned by the
    [ChIrrApp] base.  [m_car_sound] is a pointer: [None] is the null pointer. *)
Record ChVehicleIrrApp (Cam Veh Ptr : Type) := mkApp {
  m_car : Veh;
  m_powertrain : Ptr;
  m_camera : Cam;
  m_stepsize : double;
  m_HUD_x : Z;
  m_HUD_y : Z;
  m_renderGrid : bool;
  m_renderLinks : bool;
  m_renderSprings : bool;
  m_renderStats : bool;
  m_gridHeight : double;
  active_camera : irr.ICameraSceneNode;
  m_car_sound : option irrklang.ISound
}.

Section Application.

Context {Body Cam Veh Ptr : Type}.
Context `{CamControl : ChChaseCameraControl Cam}.
Context `{CamDynamics : ChChaseCameraDynamics Body Cam}.
Context `{Vehicle : ChVehicle Body Veh}.
Context `{Powertrain : ChPowertrain Ptr}.

Local Notation "'App'" := (ChVehicleIrrApp Cam Veh Ptr).

Definition with_camera (cam : Cam) (app : App) : App :=
  mkApp (m_car app) (m_powertrain app) cam (m_stepsize app)
        (m_HUD_x app) (m_HUD_y app) (m_renderGrid app) (m_renderLinks app)
        (m_renderSprings app) (m_renderStats app) (m_gridHeight app)
        (active_camera app) (m_car_sound app).

Definition with_car (car : Veh) (app : App) : App :=
  mkApp car (m_powertrain app) (m_camera app) (m_stepsize app)
        (m_HUD_x app) (m_HUD_y app) (m_renderGrid app) (m_renderLinks app)
        (m_renderSprings app) (m_renderStats app) (m_gridHeight app)
        (active_camera app) (m_car_sound app).

Definition with_powertrain (pt : Ptr) (app : App) : App :=
  mkApp (m_car app) pt (m_camera app) (m_stepsize app)
        (m_HUD_x app) (m_HUD_y app) (m_renderGrid app) (m_renderLinks app)
        (m_renderSprings app) (m_renderStats app) (m_gridHeight app)
        (active_camera app) (m_car_sound app).

Definition with_active_camera (c : irr.ICameraSceneNode) (app : App) : App :=
  mkApp (m_car app) (m_powertrain app) (m_camera app) (m_stepsize app)
        (m_HUD_x app) (m_HUD_y app) (m_renderGrid app) (m_renderLinks app)
        (m_renderSprings app) (m_renderStats app) (m_gridHeight app)
        c (m_car_sound app).

Definition with_car_sound (s : option irrklang.ISound) (app : App) : App :=
  mkApp (m_car app) (m_powertrain app) (m_camera app) (m_stepsize app)
        (m_HUD_x app) (m_HUD_y app) (m_renderGrid app) (m_renderLinks app)
        (m_renderSprings app) (m_renderStats app) (m_gridHeight app)
        (active_camera app) s.

(** *** [ChCameraEventReceiver::OnEvent]

    The receiver holds [m_app]; the function takes the application it
    points to and returns the value of [OnEvent] with the application
    after the call. *)
Definition OnEvent (event : irr.SEvent) (app : App) : bool * App :=
  if negb (irr.EEVENT_TYPE_eqb (irr.EventType event) irr.EET_KEY_INPUT_EVENT)
  then (false, app)
  else
    let key := irr.Key (irr.KeyInput event) in
    if irr.PressedDown (irr.KeyInput event) then
      if (key =? irr.KEY_DOWN)%Z then
        (true, with_camera (Zoom 1 (m_camera app)) app)
      else if (key =? irr.KEY_UP)%Z then
        (true, with_camera (Zoom (-1) (m_camera app)) app)
      else if (key =? irr.KEY_LEFT)%Z then
        (true, with_camera (Turn 1 (m_camera app)) app)
      else if (key =? irr.KEY_RIGHT)%Z then
        (true, with_camera (Turn (-1) (m_camera app)) app)
      else (false, app)
    else
      if (key =? irr.KEY_KEY_1)%Z then
        (true, with_camera (SetState Chase (m_camera app)) app)
      else if (key =? irr.KEY_KEY_2)%Z then
        (true, with_camera (SetState Follow (m_camera app)) app)
      else if (key =? irr.KEY_KEY_3)%Z then
        (true, with_camera (SetState Track (m_camera app)) app)
      else if (key =? irr.KEY_KEY_4)%Z then
        (true, with_camera (SetState Inside (m_camera app)) app)
      else if (key =? irr.KEY_KEY_V)%Z then
        (true, with_car (LogConstraintViolations (m_car app)) app)
      else (false, app).

(** *** The constructor

    [title] and [dims] go to the [ChIrrApp] base only and are left out. *)
Definition ChVehicleIrrApp_new (car : Veh) (powertrain : Ptr) : App :=
  let m_camera0 := ChChaseCamera_new (GetChassis car) in
  let m_camera1 :=
    Initialize (mkChVector 0 0 1) (GetLocalDriverCoordsys car) 6.0 0.5
               (GetChassis car) m_camera0 in
  let cam_pos := GetCameraPos m_camera1 in
  let cam_target := GetTargetPos m_camera1 in
  let camera :=
    irr.addCameraSceneNode (irr.mkvector3df 0 0 0) (irr.mkvector3df 0 0 0) in
  let camera := irr.setUpVector (irr.mkvector3df 0 0 1) camera in
  let camera := irr.setPosition (irr.vector3df_of cam_pos) camera in
  let camera := irr.setTarget (irr.vector3df_of cam_target) camera in
  {| m_car := car;
     m_powertrain := powertrain;
     m_camera := m_camera1;
     m_stepsize := 1e-3;
     m_HUD_x := 740;
     m_HUD_y := 20;
     m_renderGrid := true;
     m_renderLinks := true;
     m_renderSprings := true;
     m_renderStats := true;
     m_gridHeight := 0.02;
     active_camera := camera;
     m_car_sound := None |}.

(** *** [SetChaseCamera] *)
Definition SetChaseCamera (ptOnChassis : ChVector) (chaseDist chaseHeight : double)
           (app : App) : App :=
  with_camera
    (Initialize ptOnChassis (GetLocalDriverCoordsys (m_car app))
                chaseDist chaseHeight (GetChassis (m_car app)) (m_camera app))
    app.

(** *** [Advance]

    The loop [while (t < step) { h = min(m_stepsize, step - t);
    m_camera.Update(step); t += h; }] from the state [(t, cam)]. *)
Fixpoint Advance_loop (fuel : nat) (body : Body) (stepsize step : double)
         (t : double) (cam : Cam) : option (double * Cam) :=
  if ltb t step then
    match fuel with
    | O => None
    | S fuel' =>
        let h := std_min stepsize (step - t) in
        let cam' := Update body step cam in
        Advance_loop fuel' body stepsize step (t + h) cam'
    end
  else Some (t, cam).

(** The block under [CHRONO_IRRKLANG].  [stepsbetweensound] is the
    function-local [static int]: it is no member of the application and is
    threaded apart from it.  It is an unbounded integer here; from its
    initial 0 it never leaves 0..20 ([stepsbetweensound_range]). *)
Definition Advance_sound (app : App) (stepsbetweensound : Z) : App * Z :=
  match m_car_sound app with
  | None => (app, stepsbetweensound)
  | Some snd =>
      let stepsbetweensound := (stepsbetweensound + 1)%Z in
      let engine_rpm := GetMotorSpeed (m_powertrain app) * 60 / CH_C_2PI in
      let soundspeed := engine_rpm / 8000 in
      let soundspeed := if ltb soundspeed 0.1 then 0.1 else soundspeed in
      if (20 <? stepsbetweensound)%Z then
        let snd :=
          if irrklang.getIsPaused snd
          then irrklang.setIsPaused false snd else snd in
        let snd :=
          irrklang.setPlaybackSpeed (irrklang.to_ik_f32 soundspeed) snd in
        (with_car_sound (Some snd) app, 0%Z)
      else (app, stepsbetweensound)
  end.

(** The camera hand-over after the loop. *)
Definition Advance_render (app : App) : App :=
  let cam_pos := GetCameraPos (m_camera app) in
  let cam_target := GetTargetPos (m_camera app) in
  let camera := active_camera app in
  let camera := irr.setPosition (irr.vector3df_of cam_pos) camera in
  let camera := irr.setTarget (irr.vector3df_of cam_target) camera in
  with_active_camera camera app.

Definition Advance (fuel : nat) (step : double) (app : App)
           (stepsbetweensound : Z) : option (App * Z) :=
  match Advance_loop fuel (GetChassis (m_car app)) (m_stepsize app) step 0
                     (m_camera app) with
  | None => None
  | Some (_, cam) =>
      Some (Advance_sound (Advance_render (with_camera cam app))
                          stepsbetweensound)
  end.

(** *** [renderStats]

    The first text box of the HUD:
    [sprintf(msg, "Camera mode: %s", m_camera.GetStateName().c_str())]. *)
Definition renderStats_camera_mode (app : App) : string :=
  ("Camera mode: " ++ GetStateName (m_camera app))%string.

(** The receiver called on a sequence of events, in order. *)
Definition dispatch (events : list irr.SEvent) (app : App) : App :=
  fold_left (fun a e => snd (OnEvent e a)) events app.

(** *** Runs

    A frame of a run: the vehicle and the powertrain as the simulation
    left them, and the step handed to [Advance]. *)
Record Frame := mkFrame { f_car : Veh; f_powertrain : Ptr; f_step : double }.

(** Two frames that show the camera the same chassis and the same step. *)
Definition same_input (f g : Frame) : Prop :=
  GetChassis (f_car f) = GetChassis (f_car g) /\ f_step f = f_step g.

(** The camera position and target after each [Advance] of a run. *)
Fixpoint run (fuel : nat) (frames : list Frame) (app : App)
         (stepsbetweensound : Z) : option (list (ChVector * ChVector)) :=
  match frames with
  | [] => Some []
  | f :: rest =>
      let app := with_powertrain (f_powertrain f) (with_car (f_car f) app) in
      match Advance fuel (f_step f) app stepsbetweensound with
      | None => None
      | Some (app', counter') =>
          match run fuel rest app' counter' with
          | None => None
          | Some out =>
              Some ((GetCameraPos (m_camera app'), GetTargetPos (m_camera app'))
                      :: out)
          end
      end
  end.

End Application.

(** ** The loop of [Advance] on binary64

    The time variable [t], the sub-increment [h] and the test [t < step] of
    the loop of [Advance] once more, now on IEEE 754 binary64 numbers with
    their rounding.  The camera is any type with its [Update]. *)

Module Binary64.

Import PrimFloat SpecFloat FloatOps.

(** [std::min<>(a, b)]: [b] when [b < a], otherwise [a]. *)
Definition std_min (a b : float) : float := if (b <? a)%float then b else a.

Section Loop.

Context {Cam : Type}.

(** [m_camera.Update (step)]. *)
Variable Update : float -> Cam -> Cam.

(** The loop [while (t < step) { h = min(m_stepsize, step - t);
    m_camera.Update(step); t += h; }] from the state [(t, cam)]. *)
Fixpoint Advance_loop (fuel : nat) (stepsize step t : float) (cam : Cam)
  : option (float * Cam) :=
  if (t <? step)%float then
    match fuel with
    | O => None
    | S fuel' =>
        let h := std_min stepsize (step - t)%float in
        let cam' := Update step cam in
        Advance_loop fuel' stepsize step (t + h)%float cam'
    end
  else Some (t, cam).

End Loop.

(** The value of [m_stepsize] after the constructor: the literal [1e-3] is
    the binary64 number nearest to 1/1000. *)
Definition stepsize_1e_3 : float := 0x1.0624dd2f1a9fcp-10%float.

(** The rational number a finite binary64 number stands for (0 for the
    infinities and NaN). *)
Definition value (x : float) : Q :=
  match Prim2SF x with
  | S754_finite s m e => (if s then -1 else 1) * inject_Z (Zpos m) * 2 ^ e
  | _ => 0
  end.




End Binary64.

(** ** The key events the receiver reacts to

    The nine handled events in the words of the specification: an arrow key
    pressed, or one of the keys 1-4 and V released. *)
Definition key_event_with (char : Z) (shift control : bool)
           (key : irr.EKEY_CODE) (pressed : bool) : irr.SEvent :=
  irr.mkSEvent irr.EET_KEY_INPUT_EVENT
               (irr.mkSKeyInput char key pressed shift control).

Definition key_event : irr.EKEY_CODE -> bool -> irr.SEvent :=
  key_event_with 0 false false.

Definition arrow_keys : list irr.EKEY_CODE :=
  [irr.KEY_DOWN; irr.KEY_UP; irr.KEY_LEFT; irr.KEY_RIGHT].

Definition release_keys : list irr.EKEY_CODE :=
  [irr.KEY_KEY_1; irr.KEY_KEY_2; irr.KEY_KEY_3; irr.KEY_KEY_4; irr.KEY_KEY_V].

Definition mem_key (k : irr.EKEY_CODE) (l : list irr.EKEY_CODE) : bool :=
  existsb (Z.eqb k) l.

(** The key of each camera mode. *)
Definition mode_key (s : State) : irr.EKEY_CODE :=
  match s with
  | Chase => irr.KEY_KEY_1
  | Follow => irr.KEY_KEY_2
  | Track => irr.KEY_KEY_3
  | Inside => irr.KEY_KEY_4
  end.

Definition handled_key_event (event : irr.SEvent) : bool :=
  irr.EEVENT_TYPE_eqb (irr.EventType event) irr.EET_KEY_INPUT_EVENT
  && (if irr.PressedDown (irr.KeyInput event)
      then mem_key (irr.Key (irr.KeyInput event)) arrow_keys
      else mem_key (irr.Key (irr.KeyInput event)) release_keys).

(** ** A probe implementation of the interfaces

    A camera that records the calls made on it, used to observe which calls
    the application makes.  Its position is the time integrated so far, along
    the x axis: a camera moving at unit speed, for which advancing by [a] and
    then by [b] is advancing by [a + b]. *)
Module Probe.

Inductive CameraCall :=
| CallNew
| CallInitialize (ptOnChassis : ChVector) (driverCsys : ChCoordsys)
                 (chaseDist chaseHeight : double)
| CallUpdate (step : double)
| CallZoom (val : Z)
| CallTurn (val : Z)
| CallSetState (s : State).

Definition Camera := list CameraCall.

Definition update_steps (cam : Camera) : list double :=
  flat_map (fun c => match c with CallUpdate s => [s] | _ => [] end) cam.

Definition integrated_time (cam : Camera) : double :=
  Qred (fold_left Qplus (update_steps cam) 0).

#[global] Instance control : ChChaseCameraControl Camera := {|
  Zoom v cam := cam ++ [CallZoom v];
  Turn v cam := cam ++ [CallTurn v];
  SetState s cam := cam ++ [CallSetState s];
  GetStateName cam := EmptyString
|}.

#[global] Instance dynamics : ChChaseCameraDynamics ChCoordsys Camera := {|
  ChChaseCamera_new body := [CallNew];
  Initialize pt csys dist height body cam :=
    cam ++ [CallInitialize pt csys dist height];
  Update body step cam := cam ++ [CallUpdate step];
  GetCameraPos cam := mkChVector (integrated_time cam) 0 0;
  GetTargetPos cam := mkChVector (integrated_time cam) 0 1
|}.

Record Car := mkCar { chassis : ChCoordsys; driver : ChCoordsys; logged : nat }.

#[global] Instance vehicle : ChVehicle ChCoordsys Car := {|
  GetChassis := chassis;
  GetLocalDriverCoordsys := driver;
  LogConstraintViolations car := mkCar (chassis car) (driver car) (S (logged car))
|}.

Record Engine := mkEngine { motor_speed : double }.

#[global] Instance powertrain : ChPowertrain Engine := {|
  GetMotorSpeed := motor_speed
|}.

Definition origin : ChCoordsys :=
  mkChCoordsys (mkChVector 0 0 0) (mkChQuaternion 1 0 0 0).

Definition car0 : Car := mkCar origin origin 0.

Definition engine0 : Engine := mkEngine 0.

(** The application as its constructor leaves it. *)
Definition app0 : ChVehicleIrrApp Camera Car Engine :=
  ChVehicleIrrApp_new car0 engine0.

(** The same application with a paused engine sound. *)
Definition sound0 : irrklang.ISound := irrklang.mkISound true 1.

Definition app_sound : ChVehicleIrrApp Camera Car Engine :=
  with_car_sound (Some sound0) app0.

(** The same chassis in a vehicle with one logged report, and a running
    engine. *)
Definition car1 : Car := mkCar origin origin 1.

Definition engine1 : Engine := mkEngine 300.

(** A mouse event; its key member is never read. *)
Definition mouse_event : irr.SEvent :=
  irr.mkSEvent irr.EET_MOUSE_INPUT_EVENT
               (irr.mkSKeyInput 0 irr.KEY_DOWN true false false).

End Probe.

(** ** The chase camera of the specification *)

Module ChaseCameraSpec.

(** Modelled from the spec: the body of [utils::ChChaseCamera] is not in this
    translation unit.  The controller state of section 3: the active mode,
    the chase distance with its configured positive minimum and the amount of
    one zoom adjustment, and the two accumulated operator intents. *)
Record ChChaseCamera := mkCamera {
  mode : State;
  distance : double;
  minDistance : double;
  zoomStep : double;
  zoomIntent : Z;
  turnIntent : Z
}.

(** Modelled from the spec: [GetStateName], a human-readable label for the
    active mode (section 4.1). *)
Definition stateName (s : State) : string :=
  match s with
  | Chase => "Chase"
  | Follow => "Follow"
  | Track => "Track"
  | Inside => "Inside"
  end.

(** Modelled from the spec: [SetState(mode)], an immediate and unconditional
    mode switch (sections 4.1 and 4.3). *)
Definition SetState_spec (s : State) (c : ChChaseCamera) : ChChaseCamera :=
  mkCamera s (distance c) (minDistance c) (zoomStep c) (zoomIntent c) (turnIntent c).

(** Modelled from the spec: [Zoom(direction)] increments or decrements
    [zoomIntent] by one unit (section 4.3). *)
Definition Zoom_spec (direction : Z) (c : ChChaseCamera) : ChChaseCamera :=
  mkCamera (mode c) (distance c) (minDistance c) (zoomStep c)
           (zoomIntent c + direction) (turnIntent c).

(** Modelled from the spec: [Turn(direction)], analogous to [Zoom]. *)
Definition Turn_spec (direction : Z) (c : ChChaseCamera) : ChChaseCamera :=
  mkCamera (mode c) (distance c) (minDistance c) (zoomStep c)
           (zoomIntent c) (turnIntent c + direction).




#[global] Instance control : ChChaseCameraControl ChChaseCamera := {|
  Zoom := Zoom_spec;
  Turn := Turn_spec;
  SetState := SetState_spec;
  GetStateName c := stateName (mode c)
|}.





(** A sequence of [SetState] commands. *)
Definition set_states (modes : list State) (c : ChChaseCamera) : ChChaseCamera :=
  fold_left (fun c s => SetState s c) modes c.



End ChaseCameraSpec.

(** ** The rest of the translation unit

    [EnableSound], the drawing functions and the HUD.  The calls on the
    Irrlicht video driver, on the built-in font and on [ChIrrTools] are
    recorded, in order, as a list of [DrawCall]s.  The C [int]s are unbounded
    integers; the cast [(int)x] of a value outside the range of [int] is
    outside this model. *)

(** [std::max<>(a, b)]: [b] when [a < b], otherwise [a]. *)
Definition std_max (a b : double) : double := if ltb a b then b else a.

(** The cast [(int)x]: truncation toward zero.  The cast is defined in C++
    only for a value inside the range of [int]; the theorems on the gauges
    bound the factor so that the value stays there. *)
Definition int_of_double (x : double) : Z := Z.quot (Qnum x) (Zpos (Qden x)).

(** [chrono::CH_C_PI_2] and [VECT_Z] of the Chrono core headers. *)
Definition CH_C_PI_2 : double := 1.570796326794896619231321691639751442.

Definition VECT_Z : ChVector := mkChVector 0 0 1.

Module video.

Record SColor := mkSColor { alpha : Z; red : Z; green : Z; blue : Z }.

(** [core::rect<s32>(x, y, x2, y2)]: the upper left and the lower right
    corner. *)
Record rect := mkrect { ULx : Z; ULy : Z; LRx : Z; LRy : Z }.

End video.

Inductive DrawCall :=
| draw2DRectangle (color : video.SColor) (pos clip : video.rect)
| font_draw (text : string) (position : video.rect) (color : video.SColor)
| drawGrid (ustep vstep : double) (nu nv : Z) (pos : ChCoordsys)
           (color : video.SColor) (use_Zbuffer : bool)
| drawSpring (radius : double) (start finish : ChVector) (color : video.SColor)
             (resolution : Z) (turns : double) (use_Zbuffer : bool)
| drawSegment (start finish : ChVector) (color : video.SColor)
              (use_Zbuffer : bool)
| ChIrrAppInterface_DrawAll.

(** A link of the system as the [dynamic_cast]s of [renderSprings] and
    [renderLinks] see it: for each target class, [None] when the cast
    fails, otherwise the two end points read through that class. *)
Record ChLink := mkChLink {
  as_ChLinkSpring : option (ChVector * ChVector);
  as_ChLinkSpringCB : option (ChVector * ChVector);
  as_ChLinkDistance : option (ChVector * ChVector);
  as_ChLinkRevoluteSpherical : option (ChVector * ChVector)
}.

Inductive VehicleSide := LEFT | RIGHT.

Record ChWheelID := mkChWheelID { wheel_axle : Z; wheel_side : VehicleSide }.

(** A shafts driveline: the indexes of its driven axles and the torque at a
    wheel. *)
Record ShaftsDriveline := mkShaftsDriveline {
  GetDrivenAxleIndexes : list Z;
  GetWheelTorque : ChWheelID -> double
}.

(** The driveline as the two [DynamicCastTo]s of [renderStats] see it. *)
Record ChDriveline := mkChDriveline {
  as_ChShaftsDriveline2WD : option ShaftsDriveline;
  as_ChShaftsDriveline4WD : option ShaftsDriveline
}.

(** [ChPowertrain::DriveMode]; [renderStats] has a [default] case for any
    other value of the enumeration type. *)
Inductive DriveMode := FORWARD | NEUTRAL | REVERSE | DriveMode_other (v : Z).

(** The other members of [ChVehicle] and [ChPowertrain] that the drawing
    functions call.  [GetSystem()] of the application is the system of the
    vehicle, handed to the [ChIrrApp] base by the constructor. *)
Class ChVehicleView (Veh : Type) := {
  Get_linklist : Veh -> list ChLink;
  GetVehicleSpeed : Veh -> double;
  GetDriveline : Veh -> ChDriveline
}.

Class ChPowertrainView (Ptr : Type) := {
  GetMotorTorque : Ptr -> double;
  GetTorqueConverterSlippage : Ptr -> double;
  GetTorqueConverterInputTorque : Ptr -> double;
  GetTorqueConverterOutputTorque : Ptr -> double;
  GetCurrentTransmissionGear : Ptr -> Z;
  GetDriveMode : Ptr -> DriveMode
}.

(** What the C and Chrono libraries compute for the drawing functions: the
    conversions ["%+.2f"] and ["%d"] of [sprintf], and the quaternion of a
    rotation by an angle about an axis. *)
Class Library := {
  format_plus_2f : double -> string;
  format_d : Z -> string;
  Q_from_AngAxis : double -> ChVector -> ChQuaternion
}.

(** [sprintf] into [char msg[100]]: the text and its terminating zero have
    to fit; [None] is the write past the end of the buffer. *)
Definition sprintf_msg (text : string) : option string :=
  if (String.length text <? 100)%nat then Some text else None.

(** *** [renderLinGauge] and [renderTextBox] *)

Definition renderLinGauge (msg : string) (factor : double) (sym : bool)
           (xpos ypos length height : Z) : list DrawCall :=
  let mclip := video.mkrect xpos ypos (xpos + length) (ypos + height) in
  let left :=
    if sym
    then int_of_double (inject_Z (Z.quot length 2 - 2) * std_min factor 0.0
                        + inject_Z (Z.quot length 2))
    else 2%Z in
  let right :=
    if sym
    then int_of_double (inject_Z (Z.quot length 2 - 2) * std_max factor 0.0
                        + inject_Z (Z.quot length 2))
    else int_of_double (inject_Z (length - 4) * factor + 2) in
  [ draw2DRectangle (video.mkSColor 90 60 60 60)
                    (video.mkrect xpos ypos (xpos + length) (ypos + height))
                    mclip;
    draw2DRectangle (video.mkSColor 255 250 200 0)
                    (video.mkrect (xpos + left) (ypos + 2)
                                  (xpos + right) (ypos + height - 2))
                    mclip;
    font_draw msg
              (video.mkrect (xpos + 3) (ypos + 3) (xpos + length) (ypos + height))
              (video.mkSColor 255 20 20 20) ].

Definition renderTextBox (msg : string) (xpos ypos length height : Z)
  : list DrawCall :=
  let mclip := video.mkrect xpos ypos (xpos + length) (ypos + height) in
  [ draw2DRectangle (video.mkSColor 90 60 60 60)
                    (video.mkrect xpos ypos (xpos + length) (ypos + height))
                    mclip;
    font_draw msg
              (video.mkrect (xpos + 3) (ypos + 3) (xpos + length) (ypos + height))
              (video.mkSColor 255 20 20 20) ].

(** *** [renderSprings] and [renderLinks], on the link list of the system *)

Definition renderSprings_link (l : ChLink) : list DrawCall :=
  match as_ChLinkSpring l with
  | Some (p1, p2) =>
      [drawSpring 0.05 p1 p2 (video.mkSColor 255 150 20 20) 80 15 true]
  | None =>
      match as_ChLinkSpringCB l with
      | Some (p1, p2) =>
          [drawSpring 0.05 p1 p2 (video.mkSColor 255 150 20 20) 80 15 true]
      | None => []
      end
  end.

Definition renderLinks_link (l : ChLink) : list DrawCall :=
  match as_ChLinkDistance l with
  | Some (p1, p2) => [drawSegment p1 p2 (video.mkSColor 255 0 20 0) true]
  | None =>
      match as_ChLinkRevoluteSpherical l with
      | Some (p1, p2) => [drawSegment p1 p2 (video.mkSColor 255 180 0 0) true]
      | None => []
      end
  end.

Section Rendering.

Context {Body Cam Veh Ptr : Type}.
Context `{CamControl : ChChaseCameraControl Cam}.
Context `{CamDynamics : ChChaseCameraDynamics Body Cam}.
Context `{Vehicle : ChVehicle Body Veh}.
Context `{Powertrain : ChPowertrain Ptr}.
Context `{VehicleView : ChVehicleView Veh}.
Context `{PowertrainView : ChPowertrainView Ptr}.
Context `{Lib : Library}.

Local Notation "'App'" := (ChVehicleIrrApp Cam Veh Ptr).

Definition renderSprings (app : App) : list DrawCall :=
  flat_map renderSprings_link (Get_linklist (m_car app)).

Definition renderLinks (app : App) : list DrawCall :=
  flat_map renderLinks_link (Get_linklist (m_car app)).

(** *** [renderGrid] *)
Definition renderGrid (app : App) : list DrawCall :=
  let gridCsys :=
    mkChCoordsys (mkChVector 0 0 (m_gridHeight app))
                 (Q_from_AngAxis (- CH_C_PI_2) VECT_Z) in
  [drawGrid 0.5 0.5 100 100 gridCsys (video.mkSColor 255 80 130 255) true].

(** *** [renderStats]

    The text of the gear gauge. *)
Definition gear_text (drivemode : DriveMode) (ngear : Z) : string :=
  match drivemode with
  | FORWARD => ("Gear: forward, n.gear: " ++ format_d ngear)%string
  | NEUTRAL => "Gear: neutral"%string
  | REVERSE => "Gear: reverse"%string
  | DriveMode_other _ => "Gear:"%string
  end.

(** One [sprintf] followed by one [renderLinGauge] at the row [row] of the
    HUD, then the rest [k] of the function. *)
Definition gauge_then (app : App) (text : string) (factor : double) (row : Z)
           (k : option (list DrawCall)) : option (list DrawCall) :=
  match sprintf_msg text with
  | None => None
  | Some msg =>
      match k with
      | None => None
      | Some rest =>
          Some (renderLinGauge msg factor false (m_HUD_x app)
                               (m_HUD_y app + row) 120 15 ++ rest)
      end
  end.

(** The gauges of the wheel torques.  [None] is a read past the end of the
    vector of driven axles. *)
Definition renderStats_driveline (app : App) : option (list DrawCall) :=
  let torque_text label t :=
    (label ++ format_plus_2f t)%string in
  match as_ChShaftsDriveline2WD (GetDriveline (m_car app)) with
  | Some driveline =>
      match nth_error (GetDrivenAxleIndexes driveline) 0 with
      | None => None
      | Some axle =>
          let tl := GetWheelTorque driveline (mkChWheelID axle LEFT) in
          let tr := GetWheelTorque driveline (mkChWheelID axle RIGHT) in
          gauge_then app (torque_text "Torque wheel L: "%string tl) (tl / 5000) 170
         (gauge_then app (torque_text "Torque wheel R: "%string tr) (tr / 5000) 190
         (Some []))
      end
  | None =>
      match as_ChShaftsDriveline4WD (GetDriveline (m_car app)) with
      | Some driveline =>
          let axles := GetDrivenAxleIndexes driveline in
          match nth_error axles 0, nth_error axles 1 with
          | Some axle0, Some axle1 =>
              let fl := GetWheelTorque driveline (mkChWheelID axle0 LEFT) in
              let fr := GetWheelTorque driveline (mkChWheelID axle0 RIGHT) in
              let rl := GetWheelTorque driveline (mkChWheelID axle1 LEFT) in
              let rr := GetWheelTorque driveline (mkChWheelID axle1 RIGHT) in
              gauge_then app (torque_text "Torque wheel FL: "%string fl) (fl / 5000) 210
             (gauge_then app (torque_text "Torque wheel FR: "%string fr) (fr / 5000) 230
             (gauge_then app (torque_text "Torque wheel RL: "%string rl) (rl / 5000) 250
             (gauge_then app (torque_text "Torque wheel FR: "%string rr) (rr / 5000) 270
             (Some []))))
          | _, _ => None
          end
      | None => Some []
      end
  end.

Definition renderStats (app : App) : option (list DrawCall) :=
  match sprintf_msg ("Camera mode: " ++ GetStateName (m_camera app))%string with
  | None => None
  | Some msg =>
      let box := renderTextBox msg (m_HUD_x app) (m_HUD_y app) 120 15 in
      let speed := GetVehicleSpeed (m_car app) in
      let engine_rpm := GetMotorSpeed (m_powertrain app) * 60 / CH_C_2PI in
      let engine_torque := GetMotorTorque (m_powertrain app) in
      let tc_slip := GetTorqueConverterSlippage (m_powertrain app) in
      let tc_torquein := GetTorqueConverterInputTorque (m_powertrain app) in
      let tc_torqueout := GetTorqueConverterOutputTorque (m_powertrain app) in
      let ngear := GetCurrentTransmissionGear (m_powertrain app) in
      let drivemode := GetDriveMode (m_powertrain app) in
      match
        gauge_then app ("Speed: " ++ format_plus_2f speed)%string (speed / 30) 30
       (gauge_then app ("Eng. RPM: " ++ format_plus_2f engine_rpm)%string
                   (engine_rpm / 7000) 50
       (gauge_then app ("Eng. Nm: " ++ format_plus_2f engine_torque)%string
                   (engine_torque / 600) 70
       (gauge_then app ("T.conv. slip: " ++ format_plus_2f tc_slip)%string
                   (tc_slip / 1) 90
       (gauge_then app ("T.conv. in  Nm: " ++ format_plus_2f tc_torquein)%string
                   (tc_torquein / 600) 110
       (gauge_then app ("T.conv. out Nm: " ++ format_plus_2f tc_torqueout)%string
                   (tc_torqueout / 600) 130
       (gauge_then app (gear_text drivemode ngear) (inject_Z ngear / 4.0) 150
       (renderStats_driveline app)))))))
      with
      | None => None
      | Some gauges => Some (box ++ gauges)
      end
  end.

(** *** [DrawAll] *)
Definition DrawAll (app : App) : option (list DrawCall) :=
  let grid := if m_renderGrid app then renderGrid app else [] in
  let springs := if m_renderSprings app then renderSprings app else [] in
  let links := if m_renderLinks app then renderLinks app else [] in
  match (if m_renderStats app then renderStats app else Some []) with
  | None => None
  | Some stats =>
      Some (grid ++ [ChIrrAppInterface_DrawAll] ++ springs ++ links ++ stats)
  end.

End Rendering.

(** *** [EnableSound]

    An irrKlang device: what [play2D (file, looped, startPaused, track)]
    returns, [None] being the null pointer. *)
Record ISoundEngine := mkISoundEngine {
  play2D : string -> bool -> bool -> bool -> option irrklang.ISound
}.

Section Sound.

Context {Body Cam Veh Ptr : Type}.
Context `{CamControl : ChChaseCameraControl Cam}.
Context `{CamDynamics : ChChaseCameraDynamics Body Cam}.
Context `{Vehicle : ChVehicle Body Veh}.
Context `{Powertrain : ChPowertrain Ptr}.

(** [GetChronoDataFile] of the Chrono core. *)
Variable GetChronoDataFile : string -> string.

Local Notation "'App'" := (ChVehicleIrrApp Cam Veh Ptr).

(** The end of line of the C string literals. *)
Definition newline : string := String "010"%char EmptyString.

(** [EnableSound (sound)] with [CHRONO_IRRKLANG] defined.  [created] is what
    [irrklang::createIrrKlangDevice()] returns if it is called.  The result
    is the new value of the member [m_sound_engine], the application and the
    lines written to [GetLog()]; [None] is the call of [setIsPaused] through
    a null [m_car_sound]. *)
Definition EnableSound (sound : bool) (created : option ISoundEngine) (app : App)
  : option (option ISoundEngine * App * list string) :=
  if sound then
    let m_sound_engine := created in
    match m_sound_engine with
    | Some engine =>
        match play2D engine (GetChronoDataFile "carsound.ogg") true false true with
        | Some m_car_sound =>
            Some (m_sound_engine,
                  with_car_sound (Some (irrklang.setIsPaused true m_car_sound)) app,
                  [])
        | None => None
        end
    | None =>
        Some (m_sound_engine, app,
              [("Cannot start sound engine Irrklang " ++ newline)%string])
    end
  else Some (None, with_car_sound None app, []).

(** [n] calls of [Advance] with the same step. *)
Fixpoint Advance_repeat (n fuel : nat) (step : double) (app : App) (counter : Z)
  : option (App * Z) :=
  match n with
  | O => Some (app, counter)
  | S n' =>
      match Advance fuel step app counter with
      | None => None
      | Some (app', counter') => Advance_repeat n' fuel step app' counter'
      end
  end.

(** The applications that the functions of this translation unit produce,
    the simulation moving the vehicle and the powertrain in between. *)
Inductive reachable : App -> Prop :=
| reach_new (car : Veh) (powertrain : Ptr) :
    reachable (ChVehicleIrrApp_new car powertrain)
| reach_world (car : Veh) (powertrain : Ptr) (app : App) :
    reachable app -> reachable (with_powertrain powertrain (with_car car app))
| reach_OnEvent (event : irr.SEvent) (app : App) :
    reachable app -> reachable (snd (OnEvent event app))
| reach_SetChaseCamera (pt : ChVector) (dist height : double) (app : App) :
    reachable app -> reachable (SetChaseCamera pt dist height app)
| reach_EnableSound (sound : bool) (created : option ISoundEngine)
                    (app app' : App) (engine : option ISoundEngine)
                    (log : list string) :
    reachable app ->
    EnableSound sound created app = Some (engine, app', log) ->
    reachable app'
| reach_Advance (fuel : nat) (step : double) (app app' : App)
                (counter counter' : Z) :
    reachable app ->
    Advance fuel step app counter = Some (app', counter') ->
    reachable app'.

End Sound.

(** ** Observations on a list of draw calls *)

Definition SColor_eqb (a b : video.SColor) : bool :=
  (video.alpha a =? video.alpha b)%Z && (video.red a =? video.red b)%Z
  && (video.green a =? video.green b)%Z && (video.blue a =? video.blue b)%Z.

(** The rectangles drawn in a given colour, in order. *)
Definition rectangles (color : video.SColor) (calls : list DrawCall)
  : list video.rect :=
  flat_map (fun c => match c with
                     | draw2DRectangle col pos _ =>
                         if SColor_eqb col color then [pos] else []
                     | _ => []
                     end) calls.

(** The grey boxes behind the HUD widgets, and the yellow bars of the
    gauges. *)
Definition boxes : list DrawCall -> list video.rect :=
  rectangles (video.mkSColor 90 60 60 60).

Definition bars : list DrawCall -> list video.rect :=
  rectangles (video.mkSColor 255 250 200 0).

(** The texts drawn, in order. *)
Definition texts (calls : list DrawCall) : list string :=
  flat_map (fun c => match c with font_draw text _ _ => [text] | _ => [] end)
           calls.

(** [a] ends above the top of [b]. *)
Definition above (a b : video.rect) : Prop := (video.LRy a < video.ULy b)%Z.

(** [inner] lies in [outer], at least [margin] away from its border. *)
Definition inside (margin : Z) (inner outer : video.rect) : Prop :=
  (video.ULx outer + margin <= video.ULx inner
   /\ video.ULx inner <= video.LRx inner
   /\ video.LRx inner <= video.LRx outer - margin
   /\ video.ULy outer + margin <= video.ULy inner
   /\ video.ULy inner <= video.LRy inner
   /\ video.LRy inner <= video.LRy outer - margin)%Z.

(** The right edge of [r] is left of its left edge. *)
Definition inverted (r : video.rect) : Prop := (video.LRx r < video.ULx r)%Z.

(** The rows of the HUD, as offsets from [m_HUD_y]: the text box, the seven
    gauges of every vehicle, and the wheel torques of a two-wheel and of a
    four-wheel shafts driveline. *)
Definition common_rows : list Z := [0; 30; 50; 70; 90; 110; 130; 150]%Z.

Definition driveline_rows (d : ChDriveline) : list Z :=
  match as_ChShaftsDriveline2WD d with
  | Some _ => [170; 190]%Z
  | None =>
      match as_ChShaftsDriveline4WD d with
      | Some _ => [210; 230; 250; 270]%Z
      | None => []
      end
  end.

(** The box of the HUD widget at a row. *)
Definition row_box (x y row : Z) : video.rect :=
  video.mkrect x (y + row) (x + 120) (y + row + 15).

(** A link that one of the two casts of [renderSprings] accepts. *)
Definition is_spring (l : ChLink) : bool :=
  match as_ChLinkSpring l, as_ChLinkSpringCB l with
  | None, None => false
  | _, _ => true
  end.

(** A link that one of the two casts of [renderLinks] accepts. *)
Definition is_drawn_link (l : ChLink) : bool :=
  match as_ChLinkDistance l, as_ChLinkRevoluteSpherical l with
  | None, None => false
  | _, _ => true
  end.

(** What a draw call draws: the grid, the scene of the base class, an
    overlay in the world (a spring or a segment), or a part of the HUD. *)
Inductive Layer := GridLayer | SceneLayer | WorldLayer | HUDLayer.

Definition layer (c : DrawCall) : Layer :=
  match c with
  | drawGrid _ _ _ _ _ _ _ => GridLayer
  | ChIrrAppInterface_DrawAll => SceneLayer
  | drawSpring _ _ _ _ _ _ _ => WorldLayer
  | drawSegment _ _ _ _ => WorldLayer
  | draw2DRectangle _ _ _ => HUDLayer
  | font_draw _ _ _ => HUDLayer
  end.

(** The calls of [ChIrrTools::drawSpring] and of [ChIrrTools::drawSegment]. *)
Definition is_drawSpring (c : DrawCall) : bool :=
  match c with drawSpring _ _ _ _ _ _ _ => true | _ => false end.

Definition is_drawSegment (c : DrawCall) : bool :=
  match c with drawSegment _ _ _ _ => true | _ => false end.

(** ** Further inputs for the probe *)
Module Scene.

Definition spring_link : ChLink :=
  mkChLink (Some (mkChVector 0 0 0, mkChVector 0 0 1)) None None None.

Definition distance_link : ChLink :=
  mkChLink None None (Some (mkChVector 1 0 0, mkChVector 1 0 1)) None.

#[global] Instance vehicle_view : ChVehicleView Probe.Car := {|
  Get_linklist car := [spring_link; distance_link];
  GetVehicleSpeed car := 15;
  GetDriveline car := mkChDriveline None None
|}.

#[global] Instance powertrain_view : ChPowertrainView Probe.Engine := {|
  GetMotorTorque e := 300;
  GetTorqueConverterSlippage e := 0;
  GetTorqueConverterInputTorque e := 300;
  GetTorqueConverterOutputTorque e := 300;
  GetCurrentTransmissionGear e := 1%Z;
  GetDriveMode e := FORWARD
|}.

#[global] Instance library : Library := {|
  format_plus_2f x := "+0.00"%string;
  format_d n := "1"%string;
  Q_from_AngAxis angle axis := mkChQuaternion 1 0 0 0
|}.

Definition data_file (name : string) : string := ("data/" ++ name)%string.

Definition engine_ok : ISoundEngine :=
  mkISoundEngine (fun _ _ paused _ => Some (irrklang.mkISound paused 1)).

Definition engine_no_file : ISoundEngine :=
  mkISoundEngine (fun _ _ _ _ => None).

(** An application whose maximum sub-step was set to zero. *)
Definition app_zero_stepsize : ChVehicleIrrApp Probe.Camera Probe.Car Probe.Engine :=
  mkApp Probe.car0 Probe.engine0 (m_camera Probe.app0) 0 740 20
        true true true true 0.02 (active_camera Probe.app0) None.

End Scene.

(** ** A vehicle given by what the drawing functions read, and a camera
    given by its state name *)
Module Fixture.

Record Rig := mkRig {
  rig_links : list ChLink;
  rig_speed : double;
  rig_driveline : ChDriveline
}.

#[global] Instance rig_view : ChVehicleView Rig := {|
  Get_linklist := rig_links;
  GetVehicleSpeed := rig_speed;
  GetDriveline := rig_driveline
|}.

Record Labelled := mkLabelled { label : string }.

#[global] Instance labelled_control : ChChaseCameraControl Labelled := {|
  Zoom v cam := cam;
  Turn v cam := cam;
  SetState s cam := cam;
  GetStateName := label
|}.

Definition shafts (axles : list Z) : ShaftsDriveline :=
  mkShaftsDriveline axles (fun w => inject_Z (wheel_axle w)).

Definition two_wheel (axles : list Z) : ChDriveline :=
  mkChDriveline (Some (shafts axles)) None.

Definition four_wheel (axles : list Z) : ChDriveline :=
  mkChDriveline None (Some (shafts axles)).

Definition hud_app (name : string) (speed : double) (driveline : ChDriveline)
  : ChVehicleIrrApp Labelled Rig Probe.Engine :=
  mkApp (mkRig [Scene.spring_link; Scene.distance_link] speed driveline)
        Probe.engine0 (mkLabelled name) 1e-3 740 20 true true true true 0.02
        (irr.addCameraSceneNode (irr.mkvector3df 0 0 0) (irr.mkvector3df 0 0 0))
        None.

(** The application of [hud_app] at the speed 15 with a two-wheel driveline,
    its flag [m_renderSprings] cleared. *)
Definition hud_app_no_springs : ChVehicleIrrApp Labelled Rig Probe.Engine :=
  mkApp (mkRig [Scene.spring_link; Scene.distance_link] 15 (two_wheel [0]%Z))
        Probe.engine0 (mkLabelled "Chase") 1e-3 740 20 true true false true 0.02
        (irr.addCameraSceneNode (irr.mkvector3df 0 0 0) (irr.mkvector3df 0 0 0))
        None.

(** A state name of 89 characters. *)
Definition long_name : string :=
  "Chase Chase Chase Chase Chase Chase Chase Chase Chase Chase Chase Chase Chase Chase Chase".

(** What a function returned, for the cases where it returns. *)
Definition result {A : Type} (default : A) (r : option A) : A :=
  match r with Some a => a | None => default end.

Definition returned {A : Type} (r : option (list A)) : list A := result [] r.

End Fixture.

(** * Properties *)

Unset Implicit Arguments.

(** ** Comparison and minimum *)

Lemma ltb_lt (a b : double) : ltb a b = true <-> a < b.
Proof.
  unfold ltb. rewrite Qlt_alt.
  destruct (a ?= b); split; intro E; congruence.
Qed.

Lemma ltb_ge (a b : double) : ltb a b = false <-> b <= a.
Proof.
  split; intro E.
  - apply Qnot_lt_le. intro L. apply ltb_lt in L. congruence.
  - destruct (ltb a b) eqn:L; [| reflexivity].
    apply ltb_lt in L. exfalso. apply (Qlt_not_le _ _ L E).
Qed.

Lemma std_min_le_l (a b : double) : std_min a b <= a.
Proof.
  unfold std_min. destruct (ltb b a) eqn:E.
  - apply ltb_lt in E. apply Qlt_le_weak, E.
  - apply Qle_refl.
Qed.

Lemma std_min_le_r (a b : double) : std_min a b <= b.
Proof.
  unfold std_min. destruct (ltb b a) eqn:E.
  - apply Qle_refl.
  - apply ltb_ge in E. exact E.
Qed.

Lemma std_min_pos (a b : double) : 0 < a -> 0 < b -> 0 < std_min a b.
Proof. unfold std_min. destruct (ltb b a); auto. Qed.

(** ** The sub-stepping loop *)

Section LoopFacts.

Context {Body Cam : Type}.
Context `{CamDynamics : ChChaseCameraDynamics Body Cam}.

Variable body : Body.
Variables stepsize step : double.

(** The loop does not start when the condition fails, whatever the fuel. *)
Lemma Advance_loop_skip (fuel : nat) (t : double) (cam : Cam) :
  step <= t -> Advance_loop fuel body stepsize step t cam = Some (t, cam).
Proof.
  intro E. apply ltb_ge in E. destruct fuel; simpl; rewrite E; reflexivity.
Qed.

(** More fuel does not change a result. *)
Lemma Advance_loop_more_fuel (fuel : nat) :
  forall extra t cam r,
    Advance_loop fuel body stepsize step t cam = Some r ->
    Advance_loop (fuel + extra) body stepsize step t cam = Some r.
Proof.
  induction fuel as [| fuel IH]; intros extra t cam r E.
  - simpl in E. destruct (ltb t step) eqn:L; [discriminate |].
    rewrite Advance_loop_skip; [exact E | apply ltb_ge, L].
  - simpl in *. destruct (ltb t step); [| exact E].
    apply IH, E.
Qed.

(** With a positive maximum sub-step, [n] units of fuel are enough as soon as
    the time left is at most [n] sub-steps.  Every iteration calls
    [Update (step)], adds at most [stepsize] to [t], the loop ends at
    [t == step], and it never runs more iterations than it has fuel. *)
Lemma Advance_loop_enough_fuel :
  0 < stepsize ->
  forall (n : nat) (t : double) (cam : Cam),
    step - t <= inject_Z (Z.of_nat n) * stepsize ->
    exists (k : nat) (t' : double),
      (k <= n)%nat /\
      Advance_loop n body stepsize step t cam
      = Some (t', Nat.iter k (Update body step) cam) /\
      t' <= t + inject_Z (Z.of_nat k) * stepsize /\
      (t < step -> t' == step /\ (0 < k)%nat) /\
      (step <= t -> t' = t /\ k = O).
Proof.
  intros Hm n. induction n as [| n IH]; intros t cam Hleft.
  - assert (Hge : step <= t).
    { change (inject_Z (Z.of_nat 0)) with 0 in Hleft. lra. }
    exists O, t. repeat split; auto.
    + apply Advance_loop_skip, Hge.
    + change (inject_Z (Z.of_nat 0)) with 0. lra.
    + exfalso. lra.
    + exfalso. lra.
  - destruct (ltb t step) eqn:L.
    + apply ltb_lt in L.
      pose proof (std_min_le_l stepsize (step - t)) as Hh.
      assert (Hnext : step - (t + std_min stepsize (step - t))
                      <= inject_Z (Z.of_nat n) * stepsize).
      { rewrite Nat2Z.inj_succ in Hleft. unfold Z.succ in Hleft.
        rewrite inject_Z_plus in Hleft.
        unfold std_min. destruct (ltb (step - t) stepsize) eqn:M.
        - assert (0 <= inject_Z (Z.of_nat n) * stepsize).
          { apply Qmult_le_0_compat; [| lra].
            change 0 with (inject_Z 0). rewrite <- Zle_Qle. lia. }
          lra.
        - change (inject_Z 1) with 1 in Hleft. lra. }
      destruct (IH (t + std_min stepsize (step - t)) (Update body step cam) Hnext)
        as (k & t' & Hk & Hrun & Hup & Hlt & Hge).
      exists (S k), t'. split; [lia |]. split; [| split; [| split]].
      * rewrite Nat.iter_succ_r. apply ltb_lt in L.
        cbn [Advance_loop]. rewrite L. exact Hrun.
      * rewrite Nat2Z.inj_succ. unfold Z.succ. rewrite inject_Z_plus.
        change (inject_Z 1) with 1. lra.
      * intros _. split; [| lia].
        destruct (ltb (t + std_min stepsize (step - t)) step) eqn:L'.
        -- apply ltb_lt in L'. apply Hlt, L'.
        -- apply ltb_ge in L'. destruct (Hge L') as [-> _].
           pose proof (std_min_le_r stepsize (step - t)). lra.
      * intro G. exfalso. lra.
    + apply ltb_ge in L.
      exists O, t. repeat split; auto; try lia.
      * apply Advance_loop_skip, L.
      * change (inject_Z (Z.of_nat 0)) with 0. lra.
      * exfalso. lra.
      * exfalso. lra.
Qed.

(** For a positive step the loop runs exactly [ceil (step / stepsize)]
    iterations. *)
Lemma Advance_loop_iterations :
  0 < stepsize -> 0 < step ->
  forall (fuel : nat) (cam : Cam),
    (Z.to_nat (Qceiling (step / stepsize)) <= fuel)%nat ->
    exists t' : double,
      t' == step /\
      Advance_loop fuel body stepsize step 0 cam
      = Some (t', Nat.iter (Z.to_nat (Qceiling (step / stepsize)))
                           (Update body step) cam).
Proof.
  intros Hm Hs fuel cam Hfuel.
  set (N := Z.to_nat (Qceiling (step / stepsize))) in *.
  assert (Hleft : step - 0 <= inject_Z (Z.of_nat N) * stepsize).
  { pose proof (Qle_ceiling (step / stepsize)) as Hc.
    assert (Hn : inject_Z (Qceiling (step / stepsize)) <= inject_Z (Z.of_nat N)).
    { rewrite <- Zle_Qle. subst N. lia. }
    assert (Hq : step / stepsize <= inject_Z (Z.of_nat N)).
    { eapply Qle_trans; eassumption. }
    apply Qmult_le_compat_r with (z := stepsize) in Hq; [| lra].
    assert (Hd : step / stepsize * stepsize == step).
    { unfold double in *. field. lra. }
    lra. }
  destruct (Advance_loop_enough_fuel Hm N 0 cam Hleft)
    as (k & t' & Hk & Hrun & Hup & Hlt & _).
  destruct (Hlt Hs) as [Heq _].
  assert (HkN : k = N).
  { assert (Hq : step / stepsize <= inject_Z (Z.of_nat k)).
    { apply Qle_shift_div_r; [exact Hm | lra]. }
    apply Qceiling_resp_le in Hq. rewrite Qceiling_Z in Hq. subst N. lia. }
  subst k. exists t'. split; [exact Heq |].
  apply Advance_loop_more_fuel with (extra := (fuel - N)%nat) in Hrun.
  replace (N + (fuel - N))%nat with fuel in Hrun by lia. exact Hrun.
Qed.

(** A result of the loop is the camera updated with the whole [step], once
    per iteration. *)
Lemma Advance_loop_result (fuel : nat) :
  forall t cam t' cam',
    Advance_loop fuel body stepsize step t cam = Some (t', cam') ->
    exists k, (k <= fuel)%nat /\ cam' = Nat.iter k (Update body step) cam.
Proof.
  induction fuel as [| fuel IH]; intros t cam t' cam' E; simpl in E.
  - destruct (ltb t step); [discriminate |].
    exists O. split; [lia |]. simpl. congruence.
  - destruct (ltb t step).
    + destruct (IH _ _ _ _ E) as (k & Hk & ->).
      exists (S k). split; [lia |]. rewrite Nat.iter_succ_r. reflexivity.
    + exists O. split; [lia |]. simpl. congruence.
Qed.

End LoopFacts.

(** ** The application *)

Section ApplicationFacts.

Context {Body Cam Veh Ptr : Type}.
Context `{CamControl : ChChaseCameraControl Cam}.
Context `{CamDynamics : ChChaseCameraDynamics Body Cam}.
Context `{Vehicle : ChVehicle Body Veh}.
Context `{Powertrain : ChPowertrain Ptr}.

Local Notation "'App'" := (ChVehicleIrrApp Cam Veh Ptr).

Lemma Advance_sound_camera (app : App) (counter : Z) :
  m_camera (fst (Advance_sound app counter)) = m_camera app
  /\ m_stepsize (fst (Advance_sound app counter)) = m_stepsize app
  /\ active_camera (fst (Advance_sound app counter)) = active_camera app.
Proof.
  unfold Advance_sound. destruct (m_car_sound app); [| auto].
  destruct (20 <? counter + 1)%Z; auto.
Qed.

(** [Advance] succeeds exactly when its loop does, and then the camera is the
    one the loop leaves and the renderer's camera shows it. *)
Lemma Advance_inv (fuel : nat) (step : double) (app : App) (counter : Z) :
  match Advance_loop fuel (GetChassis (m_car app)) (m_stepsize app) step 0
                     (m_camera app) with
  | None => Advance fuel step app counter = None
  | Some (_, cam) =>
      exists app' counter',
        Advance fuel step app counter = Some (app', counter')
        /\ m_camera app' = cam
        /\ m_stepsize app' = m_stepsize app
        /\ irr.Position (active_camera app') = irr.vector3df_of (GetCameraPos cam)
        /\ irr.Target (active_camera app') = irr.vector3df_of (GetTargetPos cam)
        /\ irr.UpVector (active_camera app') = irr.UpVector (active_camera app)
  end.
Proof.
  unfold Advance.
  destruct (Advance_loop _ _ _ _ _ _) as [[t cam] |]; [| reflexivity].
  set (app1 := Advance_render (with_camera cam app)).
  destruct (Advance_sound app1 counter) as [app' counter'] eqn:E.
  destruct (Advance_sound_camera app1 counter) as (Hc & Hs & Ha).
  rewrite E in Hc, Hs, Ha. simpl in Hc, Hs, Ha.
  exists app', counter'. rewrite Hc, Hs, Ha. repeat split.
Qed.

(** The number of iterations [ceil (step / m_stepsize)] is enough fuel. *)
Lemma ceiling_fuel (stepsize step : Q) :
  0 < stepsize ->
  step - 0 <= inject_Z (Z.of_nat (Z.to_nat (Qceiling (step / stepsize)))) * stepsize.
Proof.
  intro Hm.
  assert (Hq : step == (step / stepsize) * stepsize).
  { field. intro Z0. rewrite Z0 in Hm. apply (Qlt_irrefl 0), Hm. }
  pose proof (Qle_ceiling (step / stepsize)) as Hc.
  set (c := Qceiling (step / stepsize)) in *.
  assert (Hn : inject_Z c <= inject_Z (Z.of_nat (Z.to_nat c))).
  { rewrite <- Zle_Qle. lia. }
  assert (Hmul : (step / stepsize) * stepsize
                 <= inject_Z (Z.of_nat (Z.to_nat c)) * stepsize).
  { apply Qmult_le_compat_r; [| apply Qlt_le_weak, Hm].
    eapply Qle_trans; eassumption. }
  rewrite <- Hq in Hmul. unfold Qminus. rewrite Qplus_0_r. exact Hmul.
Qed.

(** For a positive step, [Advance] updates the camera with the whole [step]
    once per iteration, [ceil (step / m_stepsize)] times in all.  This count
    is the one of exact arithmetic; the count on binary64 is the subject of
    [Binary64.Advance_loop]. *)
Lemma Advance_iterations (fuel : nat) (step : double) (app : App) (counter : Z) :
  0 < m_stepsize app -> 0 < step ->
  (Z.to_nat (Qceiling (step / m_stepsize app)) <= fuel)%nat ->
  Advance fuel step app counter
  = Some (Advance_sound
            (Advance_render
               (with_camera
                  (Nat.iter (Z.to_nat (Qceiling (step / m_stepsize app)))
                            (Update (GetChassis (m_car app)) step) (m_camera app))
                  app))
            counter).
Proof.
  intros Hm Hs Hfuel.
  destruct (Advance_loop_iterations (GetChassis (m_car app)) _ _ Hm Hs fuel
                                    (m_camera app) Hfuel) as (t' & _ & Hrun).
  unfold Advance. rewrite Hrun. reflexivity.
Qed.

(** With a positive maximum sub-step and enough fuel [Advance] returns: the
    loop leaves some camera, which is handed to the renderer, and the sound
    block runs.  The amount of fuel is the one of exact arithmetic. *)
Lemma Advance_returns (fuel : nat) (step : double) (app : App) (counter : Z) :
  0 < m_stepsize app ->
  (Z.to_nat (Qceiling (step / m_stepsize app)) <= fuel)%nat ->
  exists cam : Cam,
    Advance fuel step app counter
    = Some (Advance_sound (Advance_render (with_camera cam app)) counter).
Proof.
  intros Hm Hfuel.
  set (N := Z.to_nat (Qceiling (step / m_stepsize app))) in *.
  destruct (Advance_loop_enough_fuel (GetChassis (m_car app)) _ step Hm
              N 0 (m_camera app) (ceiling_fuel _ step Hm))
    as (k & t' & _ & Hrun & _).
  apply Advance_loop_more_fuel with (extra := (fuel - N)%nat) in Hrun.
  replace (N + (fuel - N))%nat with fuel in Hrun by lia.
  exists (Nat.iter k (Update (GetChassis (m_car app)) step) (m_camera app)).
  unfold Advance. rewrite Hrun. reflexivity.
Qed.

(** *** The degenerate step *)

(** C3: with [step == 0] the loop body runs zero times (even without fuel),
    the chase camera is left as it was, and the position and target handed
    to the renderer are those of that unchanged camera; when the renderer
    already showed them, its camera node does not change either. *)
Theorem Advance_zero_step (fuel : nat) (step : double) (app : App) (counter : Z) :
  step == 0 ->
  Advance_loop fuel (GetChassis (m_car app)) (m_stepsize app) step 0 (m_camera app)
  = Some (0, m_camera app)
  /\ exists (app' : App) (counter' : Z),
      Advance fuel step app counter = Some (app', counter')
      /\ m_camera app' = m_camera app
      /\ irr.Position (active_camera app')
         = irr.vector3df_of (GetCameraPos (m_camera app))
      /\ irr.Target (active_camera app')
         = irr.vector3df_of (GetTargetPos (m_camera app))
      /\ (irr.Position (active_camera app)
          = irr.vector3df_of (GetCameraPos (m_camera app)) ->
          irr.Target (active_camera app)
          = irr.vector3df_of (GetTargetPos (m_camera app)) ->
          active_camera app' = active_camera app).
Proof.
  intro H0.
  assert (Hskip : Advance_loop fuel (GetChassis (m_car app)) (m_stepsize app)
                               step 0 (m_camera app) = Some (0, m_camera app)).
  { apply Advance_loop_skip. rewrite H0. apply Qle_refl. }
  split; [exact Hskip |].
  pose proof (Advance_inv fuel step app counter) as Hinv.
  rewrite Hskip in Hinv.
  destruct Hinv as (app' & counter' & HA & Hcam & _ & Hp & Ht & Hu).
  exists app', counter'. repeat split; auto.
  intros Hp0 Ht0.
  destruct (active_camera app') as [u p l], (active_camera app) as [u0 p0 l0].
  simpl in *. congruence.
Qed.

(** *** Determinism *)

(** The camera after [Advance] is a function of the camera before, of
    [m_stepsize], of the chassis and of the step. *)
Lemma Advance_camera_independent (fuel : nat) (step : double)
      (a b : App) (ca cb : Z) :
  m_camera a = m_camera b ->
  m_stepsize a = m_stepsize b ->
  GetChassis (m_car a) = GetChassis (m_car b) ->
  match Advance fuel step a ca, Advance fuel step b cb with
  | Some (a', _), Some (b', _) =>
      m_camera a' = m_camera b' /\ m_stepsize a' = m_stepsize b'
  | None, None => True
  | _, _ => False
  end.
Proof.
  intros Hc Hs Hb.
  pose proof (Advance_inv fuel step a ca) as Ha.
  pose proof (Advance_inv fuel step b cb) as Hb'.
  rewrite Hc, Hs, Hb in Ha.
  destruct (Advance_loop fuel (GetChassis (m_car b)) (m_stepsize b) step 0
                         (m_camera b)) as [[t cam] |].
  - destruct Ha as (a' & ca' & -> & Hca & Hsa & _).
    destruct Hb' as (b' & cb' & -> & Hcb & Hsb & _).
    split; congruence.
  - rewrite Ha, Hb'. exact I.
Qed.

(** With a positive maximum sub-step and fuel for the longest step, a run
    returns a position and a target for every frame. *)
Lemma run_returns (fuel : nat) (frames : list Frame) :
  forall (app : App) (counter : Z),
    0 < m_stepsize app ->
    Forall (fun f => (Z.to_nat (Qceiling (f_step f / m_stepsize app)) <= fuel)%nat)
           frames ->
    exists trajectory : list (ChVector * ChVector),
      run fuel frames app counter = Some trajectory
      /\ List.length trajectory = List.length frames.
Proof.
  induction frames as [| f frames IH]; intros app counter Hm Hfuel.
  - exists []. split; reflexivity.
  - inversion Hfuel as [| f' fs' Hf Hrest]; subst.
    cbn [run].
    set (app1 := with_powertrain (f_powertrain f) (with_car (f_car f) app)).
    assert (Hm1 : 0 < m_stepsize app1) by exact Hm.
    destruct (Advance_returns fuel (f_step f) app1 counter Hm1 Hf) as (cam & HA).
    pose proof (Advance_inv fuel (f_step f) app1 counter) as Hinv.
    destruct (Advance_loop fuel (GetChassis (m_car app1)) (m_stepsize app1)
                           (f_step f) 0 (m_camera app1)) as [[t cam'] |].
    + destruct Hinv as (app' & counter' & HA' & _ & Hs & _).
      rewrite HA'.
      assert (Hm' : 0 < m_stepsize app') by (rewrite Hs; exact Hm).
      assert (Hrest' : Forall (fun f0 => (Z.to_nat (Qceiling
                                  (f_step f0 / m_stepsize app')) <= fuel)%nat)
                              frames).
      { rewrite Hs. exact Hrest. }
      destruct (IH app' counter' Hm' Hrest') as (out & -> & Hlen).
      eexists. split; [reflexivity |]. cbn [List.length]. rewrite Hlen.
      reflexivity.
    + rewrite Hinv in HA. discriminate HA.
Qed.

(** C4: two runs that start with the same chase camera and the same
    [m_stepsize], and that see the same chassis and the same step at every
    frame, yield the same sequence of camera positions and targets, whatever
    else differs between them (the static sound counter, the sound, the
    powertrain, the rest of the vehicle, the HUD settings); with a positive
    [m_stepsize] and fuel for the longest step that sequence exists and has
    an entry for every frame. *)
Theorem run_deterministic (fuel : nat) (frames1 frames2 : list Frame) :
  Forall2 same_input frames1 frames2 ->
  forall (app1 app2 : App) (counter1 counter2 : Z),
    m_camera app1 = m_camera app2 ->
    m_stepsize app1 = m_stepsize app2 ->
    run fuel frames1 app1 counter1 = run fuel frames2 app2 counter2
    /\ (0 < m_stepsize app1 ->
        Forall (fun f => (Z.to_nat (Qceiling (f_step f / m_stepsize app1))
                          <= fuel)%nat) frames1 ->
        exists trajectory : list (ChVector * ChVector),
          run fuel frames1 app1 counter1 = Some trajectory
          /\ run fuel frames2 app2 counter2 = Some trajectory
          /\ List.length trajectory = List.length frames1).
Proof.
  intros Hframes app1 app2 counter1 counter2 Hcam Hsize.
  assert (Heq : run fuel frames1 app1 counter1 = run fuel frames2 app2 counter2).
  { revert app1 app2 counter1 counter2 Hcam Hsize.
    induction Hframes as [| f g fs gs [Hbody Hstep] _ IH];
      intros a b ca cb Hc Hs.
    - reflexivity.
    - cbn [run]. rewrite Hstep.
      pose proof (Advance_camera_independent fuel (f_step g)
                    (with_powertrain (f_powertrain f) (with_car (f_car f) a))
                    (with_powertrain (f_powertrain g) (with_car (f_car g) b))
                    ca cb Hc Hs Hbody) as Hadv.
      destruct (Advance fuel (f_step g)
                        (with_powertrain _ (with_car (f_car f) a)) ca)
        as [[a' ca'] |];
        destruct (Advance fuel (f_step g)
                          (with_powertrain _ (with_car (f_car g) b)) cb)
        as [[b' cb'] |]; try contradiction; [| reflexivity].
      destruct Hadv as [Hc' Hs'].
      rewrite (IH a' b' ca' cb' Hc' Hs'), Hc'. reflexivity. }
  split; [exact Heq |].
  intros Hm Hfuel.
  destruct (run_returns fuel frames1 app1 counter1 Hm Hfuel) as (out & Hrun & Hlen).
  exists out. repeat split; auto. rewrite <- Heq. exact Hrun.
Qed.

(** *** The event receiver *)

(** C5 (amended): the receiver issues the camera commands as follows.  A
    press of the down, up, left and right arrow issues [Zoom(1)], [Zoom(-1)],
    [Turn(1)] and [Turn(-1)].  A release of the keys 1, 2, 3 and 4 issues
    [SetState] with [Chase], [Follow], [Track] and [Inside].  A press of a
    mode key and a release of an arrow key issue nothing and return [false]. *)
Theorem OnEvent_key_commands (app : App) (char : Z) (shift control : bool) :
  let ev := key_event_with char shift control in
  let cam := m_camera app in
  OnEvent (ev irr.KEY_DOWN true) app = (true, with_camera (Zoom 1 cam) app)
  /\ OnEvent (ev irr.KEY_UP true) app = (true, with_camera (Zoom (-1) cam) app)
  /\ OnEvent (ev irr.KEY_LEFT true) app = (true, with_camera (Turn 1 cam) app)
  /\ OnEvent (ev irr.KEY_RIGHT true) app = (true, with_camera (Turn (-1) cam) app)
  /\ OnEvent (ev irr.KEY_KEY_1 false) app
     = (true, with_camera (SetState Chase cam) app)
  /\ OnEvent (ev irr.KEY_KEY_2 false) app
     = (true, with_camera (SetState Follow cam) app)
  /\ OnEvent (ev irr.KEY_KEY_3 false) app
     = (true, with_camera (SetState Track cam) app)
  /\ OnEvent (ev irr.KEY_KEY_4 false) app
     = (true, with_camera (SetState Inside cam) app)
  /\ OnEvent (ev irr.KEY_KEY_1 true) app = (false, app)
  /\ OnEvent (ev irr.KEY_KEY_2 true) app = (false, app)
  /\ OnEvent (ev irr.KEY_KEY_3 true) app = (false, app)
  /\ OnEvent (ev irr.KEY_KEY_4 true) app = (false, app)
  /\ OnEvent (ev irr.KEY_DOWN false) app = (false, app)
  /\ OnEvent (ev irr.KEY_UP false) app = (false, app)
  /\ OnEvent (ev irr.KEY_LEFT false) app = (false, app)
  /\ OnEvent (ev irr.KEY_RIGHT false) app = (false, app).
Proof. cbv zeta. repeat split. Qed.

(** C10: [OnEvent] returns [true] exactly on the nine handled key events (an
    arrow key pressed; 1, 2, 3, 4 or V released); on every other event, of
    the keyboard or not, it returns [false] and the application, with its
    camera and its vehicle, is as before. *)
Theorem OnEvent_handled (event : irr.SEvent) (app : App) :
  fst (OnEvent event app) = handled_key_event event
  /\ (handled_key_event event = false -> OnEvent event app = (false, app)).
Proof.
  unfold OnEvent, handled_key_event, mem_key, arrow_keys, release_keys.
  destruct event as [ty [ch key pressed sh ct]]. cbn [irr.EventType irr.KeyInput
    irr.Key irr.PressedDown existsb].
  destruct (irr.EEVENT_TYPE_eqb ty irr.EET_KEY_INPUT_EVENT); cbn [negb andb];
    [| split; reflexivity].
  destruct pressed.
  - destruct (key =? irr.KEY_DOWN)%Z; [split; [reflexivity | discriminate] |].
    destruct (key =? irr.KEY_UP)%Z; [split; [reflexivity | discriminate] |].
    destruct (key =? irr.KEY_LEFT)%Z; [split; [reflexivity | discriminate] |].
    destruct (key =? irr.KEY_RIGHT)%Z; [split; [reflexivity | discriminate] |].
    split; reflexivity.
  - destruct (key =? irr.KEY_KEY_1)%Z; [split; [reflexivity | discriminate] |].
    destruct (key =? irr.KEY_KEY_2)%Z; [split; [reflexivity | discriminate] |].
    destruct (key =? irr.KEY_KEY_3)%Z; [split; [reflexivity | discriminate] |].
    destruct (key =? irr.KEY_KEY_4)%Z; [split; [reflexivity | discriminate] |].
    destruct (key =? irr.KEY_KEY_V)%Z; [split; [reflexivity | discriminate] |].
    split; reflexivity.
Qed.

(** *** The constructor *)

(** C7: the application leaves its constructor with the chase camera
    initialized on the point (0, 0, 1), the vehicle's local driver coordinate
    system, the distance 6 and the height 1/2, with no other call on the
    camera, and with the renderer's camera placed at the position and the
    target read from that camera, its up vector along z. *)
Theorem constructor_initializes_camera (car : Veh) (powertrain : Ptr) :
  let app := ChVehicleIrrApp_new car powertrain in
  exists dist height : double,
    dist == 6 /\ height == 1 # 2
    /\ m_camera app
       = Initialize (mkChVector 0 0 1) (GetLocalDriverCoordsys car) dist height
                    (GetChassis car) (ChChaseCamera_new (GetChassis car))
    /\ irr.Position (active_camera app)
       = irr.vector3df_of (GetCameraPos (m_camera app))
    /\ irr.Target (active_camera app)
       = irr.vector3df_of (GetTargetPos (m_camera app))
    /\ irr.UpVector (active_camera app) = irr.mkvector3df 0 0 1.
Proof.
  cbv zeta. exists 6.0, 0.5. repeat split.
Qed.

(** *** The sound gate *)

Lemma clamped_speed_ge (s : double) : 0.1 <= (if ltb s 0.1 then 0.1 else s).
Proof.
  destruct (ltb s 0.1) eqn:E.
  - apply Qle_refl.
  - apply ltb_ge, E.
Qed.

Lemma Advance_sound_spec (app : App) (counter : Z) (snd : irrklang.ISound) :
  m_car_sound app = Some snd ->
  if (20 <? counter + 1)%Z
  then Advance_sound app counter
       = (with_car_sound
            (Some (irrklang.mkISound false
                     (let s := GetMotorSpeed (m_powertrain app) * 60
                               / CH_C_2PI / 8000 in
                      if ltb s 0.1 then 0.1 else s)))
            app, 0%Z)
  else Advance_sound app counter = (app, (counter + 1)%Z).
Proof.
  intro Hs. unfold Advance_sound. rewrite Hs.
  destruct (20 <? counter + 1)%Z; [| reflexivity].
  destruct snd as [[|] v]; reflexivity.
Qed.

(** From 0 the static counter stays between 0 and 20, far inside the range
    of [int]. *)
Lemma stepsbetweensound_range (app : App) (counter : Z) :
  (0 <= counter <= 20)%Z ->
  (0 <= snd (Advance_sound app counter) <= 20)%Z.
Proof.
  intro Hr. unfold Advance_sound. destruct (m_car_sound app); [| exact Hr].
  destruct (20 <? counter + 1)%Z eqn:E; cbn [snd]; [lia |].
  apply Z.ltb_ge in E. lia.
Qed.

(** C9: with a sound ([m_car_sound] not null), every [Advance] that returns
    (it does with a positive [m_stepsize] and enough fuel) increments the
    static counter; when the incremented counter exceeds 20 it is reset to 0,
    the sound is unpaused and its playback speed is set to the computed speed
    raised to 0.1 where it was lower, so never below 0.1; otherwise the sound
    is left alone.  The counter is no member of an application: a call on
    one instance that brings it to 20 makes the next call, on any other
    instance, the one that sets the speed. *)
Theorem Advance_sound_gate :
  (forall (fuel : nat) (step : double) (app : App) (counter : Z)
          (snd : irrklang.ISound),
      m_car_sound app = Some snd ->
      0 < m_stepsize app ->
      (Z.to_nat (Qceiling (step / m_stepsize app)) <= fuel)%nat ->
      exists (app' : App) (counter' : Z),
        Advance fuel step app counter = Some (app', counter')
        /\ if (20 <? counter + 1)%Z
           then counter' = 0%Z
                /\ exists speed : double,
                    speed = (let s := GetMotorSpeed (m_powertrain app) * 60
                                      / CH_C_2PI / 8000 in
                             if ltb s 0.1 then 0.1 else s)
                    /\ 0.1 <= speed
                    /\ m_car_sound app' = Some (irrklang.mkISound false speed)
           else counter' = (counter + 1)%Z /\ m_car_sound app' = Some snd)
  /\ (forall (fuel : nat) (step1 step2 : double) (a b : App)
             (snd_a snd_b : irrklang.ISound),
         m_car_sound a = Some snd_a ->
         m_car_sound b = Some snd_b ->
         0 < m_stepsize a ->
         0 < m_stepsize b ->
         (Z.to_nat (Qceiling (step1 / m_stepsize a)) <= fuel)%nat ->
         (Z.to_nat (Qceiling (step2 / m_stepsize b)) <= fuel)%nat ->
         exists (a' b' : App),
           Advance fuel step1 a 19 = Some (a', 20%Z)
           /\ Advance fuel step2 b 20 = Some (b', 0%Z)
           /\ m_car_sound a' = Some snd_a
           /\ exists speed : double,
               0.1 <= speed
               /\ m_car_sound b' = Some (irrklang.mkISound false speed)).
Proof.
  assert (One : forall (fuel : nat) (step : double) (app : App) (counter : Z)
                       (snd : irrklang.ISound),
             m_car_sound app = Some snd ->
             0 < m_stepsize app ->
             (Z.to_nat (Qceiling (step / m_stepsize app)) <= fuel)%nat ->
             exists (app' : App) (counter' : Z),
               Advance fuel step app counter = Some (app', counter')
               /\ if (20 <? counter + 1)%Z
                  then counter' = 0%Z
                       /\ exists speed : double,
                           speed = (let s := GetMotorSpeed (m_powertrain app) * 60
                                             / CH_C_2PI / 8000 in
                                    if ltb s 0.1 then 0.1 else s)
                           /\ 0.1 <= speed
                           /\ m_car_sound app'
                              = Some (irrklang.mkISound false speed)
                  else counter' = (counter + 1)%Z
                       /\ m_car_sound app' = Some snd).
  { intros fuel step app counter snd Hs Hm Hfuel.
    destruct (Advance_returns fuel step app counter Hm Hfuel) as (cam & HA).
    pose proof (Advance_sound_spec (Advance_render (with_camera cam app))
                                   counter snd Hs) as Hspec.
    destruct (20 <? counter + 1)%Z; rewrite Hspec in HA;
      eexists; eexists; (split; [exact HA |]).
    - split; [reflexivity |]. eexists. split; [reflexivity |].
      split; [apply clamped_speed_ge | reflexivity].
    - split; [reflexivity | exact Hs]. }
  split; [exact One |].
  intros fuel step1 step2 a b snd_a snd_b Ha Hb Hma Hmb Hfa Hfb.
  destruct (One fuel step1 a 19%Z snd_a Ha Hma Hfa) as (a' & c1 & HA & -> & Ha').
  destruct (One fuel step2 b 20%Z snd_b Hb Hmb Hfb)
    as (b' & c2 & HB & -> & speed & _ & Hge & Hb').
  exists a', b'. repeat split; auto. exists speed. auto.
Qed.

End ApplicationFacts.

(** ** The loop of [Advance] on binary64 *)

Section Binary64Facts.

Import PrimFloat SpecFloat FloatOps FloatAxioms.












(** The sub-step of the constructor is the quotient [1 / 1000] rounded to
    binary64; it is above 1/1000, by less than [2^-63]. *)
Lemma stepsize_1e_3_nearest :
  Binary64.stepsize_1e_3 = (1 / 1000)%float
  /\ 1 # 1000 < Binary64.value Binary64.stepsize_1e_3
  /\ Binary64.value Binary64.stepsize_1e_3 < (1 # 1000) + (1 # 2 ^ 63).
Proof.
  split; [reflexivity |]. split; vm_compute; reflexivity.
Qed.


Context {Cam : Type}.

Variable Update : float -> Cam -> Cam.



End Binary64Facts.

(** ** The calls [Advance] makes on the camera *)

(** C1 (the code at the failing inputs): with the sub-step 1/1000 of the
    constructor, [Advance (1/400)] calls [Update (1/400)] three times, so the
    camera integrates 3/400; [Advance (1)] calls [Update (1)] a thousand
    times and [Advance (1/10)] calls [Update (1/10)] a hundred times, so the
    camera integrates 1000 and 10.  The sub-increment [h] never reaches
    [Update]. *)
Theorem Advance_updates_with_whole_step :
  (exists app' counter',
      Advance 3 (1 # 400) Probe.app0 0 = Some (app', counter')
      /\ Probe.update_steps (m_camera app') = [1 # 400; 1 # 400; 1 # 400]
      /\ GetCameraPos (m_camera app') = mkChVector (3 # 400) 0 0)
  /\ (exists app' counter',
         Advance 1000 1 Probe.app0 0 = Some (app', counter')
         /\ Probe.update_steps (m_camera app') = repeat 1 1000
         /\ GetCameraPos (m_camera app') = mkChVector 1000 0 0)
  /\ (exists app' counter',
         Advance 100 (1 # 10) Probe.app0 0 = Some (app', counter')
         /\ Probe.update_steps (m_camera app') = repeat (1 # 10) 100
         /\ GetCameraPos (m_camera app') = mkChVector 10 0 0).
Proof.
  split; [| split].
  - eexists; eexists. split; [vm_compute; reflexivity |].
    vm_compute. split; reflexivity.
  - rewrite Advance_iterations; [| reflexivity | reflexivity | vm_compute; lia].
    eexists; eexists. split; [reflexivity |].
    vm_compute. split; reflexivity.
  - rewrite Advance_iterations; [| reflexivity | reflexivity | vm_compute; lia].
    eexists; eexists. split; [reflexivity |].
    vm_compute. split; reflexivity.
Qed.

(** C5 (counterexample): pressing the key 1 issues no [SetState]: the
    receiver returns [false] and the application is unchanged, its camera
    having received no call. *)
Lemma mode_key_press_issues_nothing :
  OnEvent (key_event irr.KEY_KEY_1 true) Probe.app0 = (false, Probe.app0)
  /\ OnEvent (key_event irr.KEY_KEY_1 true) Probe.app0
     <> (true, with_camera (SetState Chase (m_camera Probe.app0)) Probe.app0).
Proof.
  split; [reflexivity |].
  intro E. vm_compute in E. discriminate E.
Qed.

(** ** The chase camera of the specification *)

Section CameraSpecFacts.

Import ChaseCameraSpec.

Lemma last_cons_default {A : Type} (l : list A) (a d : A) :
  last (a :: l) d = last l a.
Proof.
  revert a d. induction l as [| b l IH]; intros a d; [reflexivity |].
  change (last (a :: b :: l) d) with (last (b :: l) d).
  rewrite (IH b d), (IH b a). reflexivity.
Qed.

Lemma set_states_mode (modes : list State) :
  forall c, mode (set_states modes c) = last modes (mode c).
Proof.
  unfold set_states.
  induction modes as [| s modes IH]; intro c; [reflexivity |].
  cbn [fold_left]. rewrite IH. cbn [SetState control SetState_spec mode].
  symmetry. apply last_cons_default.
Qed.

(** Releasing the keys of a sequence of modes is that sequence of
    [SetState] commands. *)
Lemma dispatch_mode_keys {Body Veh Ptr : Type} `{ChVehicle Body Veh}
      (modes : list State) :
  forall app : ChVehicleIrrApp ChChaseCamera Veh Ptr,
    dispatch (map (fun s => key_event (mode_key s) false) modes) app
    = with_camera (set_states modes (m_camera app)) app.
Proof.
  unfold dispatch, set_states.
  induction modes as [| s modes IH]; intro app.
  - destruct app; reflexivity.
  - cbn [map fold_left]. rewrite IH. destruct s; reflexivity.
Qed.

(** C6: the modes are the four of the enumeration; a controller has exactly
    one of them active; after any sequence of [SetState] commands the active
    mode is the last one set (the one before when the sequence is empty) and
    [GetStateName] is its label; distinct modes have distinct labels; and the
    HUD line printed after the keys of a sequence of modes were released
    names the last of them. *)
Theorem mode_closure :
  (forall s : State, In s [Chase; Follow; Track; Inside])
  /\ (forall c : ChChaseCamera,
         List.length (filter (State_eqb (mode c)) [Chase; Follow; Track; Inside])
         = 1%nat)
  /\ (forall (modes : list State) (c : ChChaseCamera),
         mode (set_states modes c) = last modes (mode c)
         /\ GetStateName (set_states modes c) = stateName (last modes (mode c)))
  /\ (forall s1 s2 : State,
         String.eqb (stateName s1) (stateName s2) = State_eqb s1 s2)
  /\ (forall (Body Veh Ptr : Type) (V : ChVehicle Body Veh)
             (app : ChVehicleIrrApp ChChaseCamera Veh Ptr) (modes : list State),
         renderStats_camera_mode
           (dispatch (map (fun s => key_event (mode_key s) false) modes) app)
         = ("Camera mode: " ++ stateName (last modes (mode (m_camera app))))%string).
Proof.
  split; [intros []; simpl; tauto |].
  split; [intros [[] d dm zs zi ti]; reflexivity |].
  split.
  { intros modes c. split; [apply set_states_mode |].
    cbn [GetStateName control]. rewrite set_states_mode. reflexivity. }
  split; [intros [] []; reflexivity |].
  intros Body Veh Ptr V app modes.
  rewrite dispatch_mode_keys. unfold renderStats_camera_mode.
  cbn [m_camera with_camera GetStateName control].
  rewrite set_states_mode. reflexivity.
Qed.










End CameraSpecFacts.

(** ** The theorems at concrete inputs *)

Section Binary64Witness.

Import PrimFloat.


End Binary64Witness.

Lemma Advance_zero_step_witness :
  0 # 3 == 0
  /\ Advance_loop 0 (GetChassis (m_car Probe.app0)) (m_stepsize Probe.app0)
                  (0 # 3) 0 (m_camera Probe.app0)
     = Some (0, m_camera Probe.app0)
  /\ exists app' (counter' : Z),
      Advance 0 (0 # 3) Probe.app0 5 = Some (app', counter')
      /\ m_camera app' = m_camera Probe.app0
      /\ irr.Position (active_camera app')
         = irr.vector3df_of (GetCameraPos (m_camera Probe.app0))
      /\ irr.Target (active_camera app')
         = irr.vector3df_of (GetTargetPos (m_camera Probe.app0))
      /\ (irr.Position (active_camera Probe.app0)
          = irr.vector3df_of (GetCameraPos (m_camera Probe.app0)) ->
          irr.Target (active_camera Probe.app0)
          = irr.vector3df_of (GetTargetPos (m_camera Probe.app0)) ->
          active_camera app' = active_camera Probe.app0).
Proof.
  assert (H0 : 0 # 3 == 0) by reflexivity.
  split; [exact H0 |].
  exact (Advance_zero_step 0 (0 # 3) Probe.app0 5 H0).
Defined.

Lemma run_deterministic_witness :
  Forall2 same_input
          [mkFrame Probe.car0 Probe.engine0 (1 # 400)]
          [mkFrame Probe.car1 Probe.engine1 (1 # 400)]
  /\ m_camera Probe.app0 = m_camera Probe.app_sound
  /\ m_stepsize Probe.app0 = m_stepsize Probe.app_sound
  /\ run 3 [mkFrame Probe.car0 Probe.engine0 (1 # 400)] Probe.app0 0
     = run 3 [mkFrame Probe.car1 Probe.engine1 (1 # 400)] Probe.app_sound 20
  /\ 0 < m_stepsize Probe.app0
  /\ Forall (fun f => (Z.to_nat (Qceiling (f_step f / m_stepsize Probe.app0))
                       <= 3)%nat)
            [mkFrame Probe.car0 Probe.engine0 (1 # 400)]
  /\ exists trajectory : list (ChVector * ChVector),
      run 3 [mkFrame Probe.car0 Probe.engine0 (1 # 400)] Probe.app0 0
      = Some trajectory
      /\ run 3 [mkFrame Probe.car1 Probe.engine1 (1 # 400)] Probe.app_sound 20
         = Some trajectory
      /\ List.length trajectory = 1%nat.
Proof.
  assert (Hf : Forall2 same_input
                       [mkFrame Probe.car0 Probe.engine0 (1 # 400)]
                       [mkFrame Probe.car1 Probe.engine1 (1 # 400)]).
  { constructor; [split; reflexivity | constructor]. }
  assert (Hm : 0 < m_stepsize Probe.app0) by reflexivity.
  assert (Hfuel : Forall (fun f => (Z.to_nat (Qceiling
                            (f_step f / m_stepsize Probe.app0)) <= 3)%nat)
                         [mkFrame Probe.car0 Probe.engine0 (1 # 400)]).
  { constructor; [vm_compute; lia | constructor]. }
  split; [exact Hf |]. split; [reflexivity |]. split; [reflexivity |].
  split; [| split; [exact Hm | split; [exact Hfuel |]]].
  - exact (proj1 (run_deterministic 3 _ _ Hf Probe.app0 Probe.app_sound 0 20
                                    eq_refl eq_refl)).
  - exact (proj2 (run_deterministic 3 _ _ Hf Probe.app0 Probe.app_sound 0 20
                                    eq_refl eq_refl) Hm Hfuel).
Defined.

Lemma OnEvent_handled_witness :
  handled_key_event Probe.mouse_event = false
  /\ OnEvent Probe.mouse_event Probe.app0 = (false, Probe.app0).
Proof.
  split; [reflexivity |].
  exact (proj2 (OnEvent_handled Probe.mouse_event Probe.app0) eq_refl).
Defined.

Lemma Advance_sound_gate_witness :
  m_car_sound Probe.app_sound = Some Probe.sound0
  /\ 0 < m_stepsize Probe.app_sound
  /\ (Z.to_nat (Qceiling (0 / m_stepsize Probe.app_sound)) <= 0)%nat
  /\ (exists app' (counter' : Z),
         Advance 0 0 Probe.app_sound 20 = Some (app', counter')
         /\ counter' = 0%Z
         /\ exists speed : double,
             speed = 0.1 /\ 0.1 <= speed
             /\ m_car_sound app' = Some (irrklang.mkISound false speed))
  /\ (exists a' b',
         Advance 0 0 Probe.app_sound 19 = Some (a', 20%Z)
         /\ Advance 0 0 Probe.app_sound 20 = Some (b', 0%Z)
         /\ m_car_sound a' = Some Probe.sound0
         /\ exists speed : double,
             0.1 <= speed
             /\ m_car_sound b' = Some (irrklang.mkISound false speed)).
Proof.
  assert (Hs : m_car_sound Probe.app_sound = Some Probe.sound0) by reflexivity.
  assert (Hm : 0 < m_stepsize Probe.app_sound) by reflexivity.
  assert (Hf : (Z.to_nat (Qceiling (0 / m_stepsize Probe.app_sound)) <= 0)%nat)
    by (vm_compute; lia).
  split; [exact Hs |]. split; [exact Hm |]. split; [exact Hf |].
  split.
  - exact (proj1 Advance_sound_gate 0%nat 0 Probe.app_sound 20%Z Probe.sound0
                 Hs Hm Hf).
  - exact (proj2 Advance_sound_gate 0%nat 0 0 Probe.app_sound Probe.app_sound
                 Probe.sound0 Probe.sound0 Hs Hs Hm Hm Hf Hf).
Defined.


(** * Further properties of the translation unit *)

Section MoreApplicationFacts.

Context {Body Cam Veh Ptr : Type}.
Context `{CamControl : ChChaseCameraControl Cam}.
Context `{CamDynamics : ChChaseCameraDynamics Body Cam}.
Context `{Vehicle : ChVehicle Body Veh}.
Context `{Powertrain : ChPowertrain Ptr}.

Local Notation "'App'" := (ChVehicleIrrApp Cam Veh Ptr).

(** ** How often [Advance] updates the camera *)

(** X1: [Advance] with a positive step.  When the step is at most
    [m_stepsize] the loop makes exactly one iteration: it needs one unit of
    fuel, calls [Update (step)] once and leaves its time variable equal to
    [step], and [Advance] returns with that camera.  When the step is
    greater than [m_stepsize] one iteration is not enough, and whenever
    [Advance] returns the camera has received [Update (step)] at least
    twice. *)
Theorem Advance_update_count (step : double) (app : App) (counter : Z) :
  0 < step ->
  (step <= m_stepsize app ->
   Advance 0 step app counter = None
   /\ forall fuel : nat,
       exists (t' : double) (app' : App) (counter' : Z),
         Advance_loop (S fuel) (GetChassis (m_car app)) (m_stepsize app) step 0
                      (m_camera app)
         = Some (t', Update (GetChassis (m_car app)) step (m_camera app))
         /\ t' == step
         /\ Advance (S fuel) step app counter = Some (app', counter')
         /\ m_camera app'
            = Update (GetChassis (m_car app)) step (m_camera app))
  /\ (m_stepsize app < step ->
      Advance 1 step app counter = None
      /\ forall (fuel : nat) (app' : App) (counter' : Z),
          Advance fuel step app counter = Some (app', counter') ->
          exists n : nat,
            (2 <= n)%nat
            /\ m_camera app'
               = Nat.iter n (Update (GetChassis (m_car app)) step)
                          (m_camera app)).
Proof.
  intro Hs.
  assert (L0 : ltb 0 step = true) by (apply ltb_lt, Hs).
  split.
  - intro Hle.
    split; [unfold Advance; cbn [Advance_loop]; rewrite L0; reflexivity |].
    intro fuel.
    set (t1 := 0 + std_min (m_stepsize app) (step - 0)).
    assert (Ht1 : t1 == step).
    { subst t1. unfold std_min.
      destruct (ltb (step - 0) (m_stepsize app)) eqn:M; [lra |].
      apply ltb_ge in M. lra. }
    assert (Hrun : Advance_loop (S fuel) (GetChassis (m_car app))
                                (m_stepsize app) step 0 (m_camera app)
                   = Some (t1, Update (GetChassis (m_car app)) step
                                      (m_camera app))).
    { cbn [Advance_loop]. rewrite L0. apply Advance_loop_skip.
      fold t1. lra. }
    pose proof (Advance_inv (S fuel) step app counter) as Hinv.
    rewrite Hrun in Hinv. destruct Hinv as (app' & counter' & HA & Hc & _).
    exists t1, app', counter'. repeat split; assumption.
  - intro Hlt.
    assert (Hh : std_min (m_stepsize app) (step - 0) = m_stepsize app).
    { unfold std_min.
      assert (M : ltb (step - 0) (m_stepsize app) = false)
        by (apply ltb_ge; lra).
      rewrite M. reflexivity. }
    assert (L1 : ltb (0 + m_stepsize app) step = true)
      by (apply ltb_lt; lra).
    split.
    { unfold Advance. cbn [Advance_loop]. rewrite L0, Hh, L1. reflexivity. }
    intros fuel app' counter' HA.
    pose proof (Advance_inv fuel step app counter) as Hinv.
    destruct (Advance_loop fuel (GetChassis (m_car app)) (m_stepsize app)
                           step 0 (m_camera app))
      as [[t' cam'] |] eqn:Hrun.
    + destruct Hinv as (app2 & counter2 & HA2 & Hc & _).
      rewrite HA in HA2. injection HA2 as <- <-.
      destruct fuel as [| [| fuel]].
      * cbn [Advance_loop] in Hrun. rewrite L0 in Hrun. discriminate Hrun.
      * cbn [Advance_loop] in Hrun. rewrite L0, Hh, L1 in Hrun.
        discriminate Hrun.
      * cbn [Advance_loop] in Hrun. rewrite L0, Hh, L1 in Hrun.
        apply Advance_loop_result in Hrun. destruct Hrun as (k & _ & E).
        exists (k + 2)%nat. split; [lia |].
        rewrite Hc, E, Nat.iter_add. reflexivity.
    + rewrite HA in Hinv. discriminate Hinv.
Qed.

(** ** A maximum sub-step that is not positive *)

Lemma Advance_loop_stalls (body : Body) (stepsize step : double) :
  stepsize <= 0 -> 0 < step ->
  forall (fuel : nat) (t : double) (cam : Cam),
    t <= 0 -> Advance_loop fuel body stepsize step t cam = None.
Proof.
  intros Hm Hs fuel. induction fuel as [| fuel IH]; intros t cam Ht.
  - simpl. assert (L : ltb t step = true) by (apply ltb_lt; lra).
    rewrite L. reflexivity.
  - cbn [Advance_loop]. assert (L : ltb t step = true) by (apply ltb_lt; lra).
    rewrite L. apply IH.
    pose proof (std_min_le_l stepsize (step - t)). lra.
Qed.

(** X2: [Advance] does not guard [m_stepsize]: when it is zero or negative
    and the step is positive, the time variable never passes 0 and the loop
    does not end, whatever the fuel. *)
Theorem Advance_stalls (step : double) (app : App) (counter : Z) :
  m_stepsize app <= 0 -> 0 < step ->
  forall fuel : nat, Advance fuel step app counter = None.
Proof.
  intros Hm Hs fuel. unfold Advance.
  rewrite (Advance_loop_stalls (GetChassis (m_car app)) _ _ Hm Hs fuel 0
                               (m_camera app) (Qle_refl 0)).
  reflexivity.
Qed.

(** ** What [Advance] leaves alone *)

(** X3: an [Advance] that returns changes nothing but the chase camera, the
    position and target of the renderer's camera, and the sound: the
    vehicle, the powertrain, [m_stepsize], the HUD place, the four render
    flags, the grid height and the up vector are as before.  A null
    [m_car_sound] stays null and then the static counter keeps its value; a
    sound is never dropped. *)
Theorem Advance_frame (fuel : nat) (step : double) (app app' : App)
        (counter counter' : Z) :
  Advance fuel step app counter = Some (app', counter') ->
  m_car app' = m_car app
  /\ m_powertrain app' = m_powertrain app
  /\ m_stepsize app' = m_stepsize app
  /\ m_HUD_x app' = m_HUD_x app /\ m_HUD_y app' = m_HUD_y app
  /\ m_renderGrid app' = m_renderGrid app
  /\ m_renderLinks app' = m_renderLinks app
  /\ m_renderSprings app' = m_renderSprings app
  /\ m_renderStats app' = m_renderStats app
  /\ m_gridHeight app' = m_gridHeight app
  /\ irr.UpVector (active_camera app') = irr.UpVector (active_camera app)
  /\ (m_car_sound app = None -> m_car_sound app' = None /\ counter' = counter)
  /\ (m_car_sound app <> None -> m_car_sound app' <> None).
Proof.
  unfold Advance.
  destruct (Advance_loop _ _ _ _ _ _) as [[t cam] |]; [| discriminate].
  unfold Advance_sound, Advance_render.
  cbn [m_car_sound with_active_camera with_camera m_powertrain].
  destruct (m_car_sound app) as [snd |] eqn:Hs.
  - destruct (20 <? counter + 1)%Z; intro E; injection E as <- <-;
      cbn; rewrite ?Hs; repeat split; try discriminate; try congruence.
  - intro E; injection E as <- <-; cbn; rewrite ?Hs; repeat split; congruence.
Qed.

(** ** [SetChaseCamera] and the renderer *)

(** X4: [SetChaseCamera] re-initializes the chase camera on the given point,
    distance and height but, unlike the constructor, does not touch the
    renderer's camera, nor anything else; the next [Advance], even with a
    zero step, hands the position and target of the re-initialized camera to
    the renderer. *)
Theorem SetChaseCamera_renderer (pt : ChVector) (dist height : double)
        (app : App) (fuel : nat) (counter : Z) :
  let app1 := SetChaseCamera pt dist height app in
  m_camera app1
  = Initialize pt (GetLocalDriverCoordsys (m_car app)) dist height
               (GetChassis (m_car app)) (m_camera app)
  /\ app1 = with_camera (m_camera app1) app
  /\ active_camera app1 = active_camera app
  /\ exists (app2 : App) (counter2 : Z),
      Advance fuel 0 app1 counter = Some (app2, counter2)
      /\ m_camera app2 = m_camera app1
      /\ irr.Position (active_camera app2)
         = irr.vector3df_of (GetCameraPos (m_camera app1))
      /\ irr.Target (active_camera app2)
         = irr.vector3df_of (GetTargetPos (m_camera app1)).
Proof.
  cbv zeta. split; [reflexivity |]. split; [reflexivity |].
  split; [reflexivity |].
  set (app1 := SetChaseCamera pt dist height app).
  pose proof (Advance_inv fuel 0 app1 counter) as Hinv.
  rewrite (Advance_loop_skip (GetChassis (m_car app1)) (m_stepsize app1) 0 fuel 0
                             (m_camera app1) (Qle_refl 0)) in Hinv.
  destruct Hinv as (app2 & c2 & HA & Hc & _ & Hp & Ht & _).
  exists app2, c2. repeat split; assumption.
Qed.

(** ** What the event receiver leaves alone, and key repeat *)

(** An event changes the chase camera, or the vehicle, or nothing. *)
Lemma OnEvent_shape (event : irr.SEvent) (app : App) :
  snd (OnEvent event app) = app
  \/ (exists cam, snd (OnEvent event app) = with_camera cam app)
  \/ snd (OnEvent event app)
     = with_car (LogConstraintViolations (m_car app)) app.
Proof.
  unfold OnEvent.
  destruct (negb _); [left; reflexivity |].
  destruct (irr.PressedDown _).
  - repeat (match goal with
            | |- context [if ?b then _ else _] => destruct b
            end; [right; left; eexists; reflexivity |]).
    left; reflexivity.
  - do 4 (match goal with
          | |- context [if ?b then _ else _] => destruct b
          end; [right; left; eexists; reflexivity |]).
    match goal with
    | |- context [if ?b then _ else _] => destruct b
    end; [right; right; reflexivity | left; reflexivity].
Qed.

(** X5: an event never reaches the renderer or the settings: after
    [OnEvent] the renderer's camera, [m_stepsize], the powertrain, the
    sound, the HUD place, the render flags and the grid height are as
    before, and of the chase camera and the vehicle at most one has
    changed.  A zoom, turn or mode command shows on the screen only at the
    next [Advance]. *)
Theorem OnEvent_frame (event : irr.SEvent) (app : App) :
  let app' := snd (OnEvent event app) in
  active_camera app' = active_camera app
  /\ m_stepsize app' = m_stepsize app
  /\ m_powertrain app' = m_powertrain app
  /\ m_car_sound app' = m_car_sound app
  /\ m_HUD_x app' = m_HUD_x app /\ m_HUD_y app' = m_HUD_y app
  /\ m_renderGrid app' = m_renderGrid app
  /\ m_renderLinks app' = m_renderLinks app
  /\ m_renderSprings app' = m_renderSprings app
  /\ m_renderStats app' = m_renderStats app
  /\ m_gridHeight app' = m_gridHeight app
  /\ (m_camera app' = m_camera app \/ m_car app' = m_car app).
Proof.
  cbv zeta.
  destruct (OnEvent_shape event app) as [-> | [[cam ->] | ->]];
    cbn; repeat split; auto.
Qed.

(** [n] presses of a key, as a held key sends them, then its release. *)
Lemma dispatch_app (l1 l2 : list irr.SEvent) (app : App) :
  dispatch (l1 ++ l2) app = dispatch l2 (dispatch l1 app).
Proof. unfold dispatch. apply fold_left_app. Qed.

Lemma with_camera_same (app : App) : with_camera (m_camera app) app = app.
Proof. destruct app; reflexivity. Qed.

Lemma with_camera_twice (c1 c2 : Cam) (app : App) :
  with_camera c2 (with_camera c1 app) = with_camera c2 app.
Proof. reflexivity. Qed.

Lemma dispatch_presses (key : irr.EKEY_CODE) (command : Cam -> Cam)
      (char : Z) (shift control : bool) :
  (forall app : App,
      OnEvent (key_event_with char shift control key true) app
      = (true, with_camera (command (m_camera app)) app)) ->
  forall (n : nat) (app : App),
    dispatch (repeat (key_event_with char shift control key true) n) app
    = with_camera (Nat.iter n command (m_camera app)) app.
Proof.
  intros Hkey n. induction n as [| n IH]; intro app.
  - cbn. symmetry. apply with_camera_same.
  - cbn [repeat]. change (?e :: ?l) with ([e] ++ l).
    rewrite dispatch_app. unfold dispatch at 2. cbn [fold_left].
    rewrite Hkey. cbn [snd]. rewrite IH.
    cbn [m_camera with_camera]. rewrite Nat.iter_succ_r. reflexivity.
Qed.

(** X6: a held arrow key, sending [n] presses and then one release, issues
    its command [n] times: [Zoom(1)] for down, [Zoom(-1)] for up, [Turn(1)]
    for left, [Turn(-1)] for right.  A held mode key issues its [SetState]
    once, at the release, however many presses came before. *)
Theorem held_key (n : nat) (app : App) (char : Z) (shift control : bool) :
  let held key :=
    repeat (key_event_with char shift control key true) n
    ++ [key_event_with char shift control key false] in
  dispatch (held irr.KEY_DOWN) app
  = with_camera (Nat.iter n (Zoom 1) (m_camera app)) app
  /\ dispatch (held irr.KEY_UP) app
     = with_camera (Nat.iter n (Zoom (-1)) (m_camera app)) app
  /\ dispatch (held irr.KEY_LEFT) app
     = with_camera (Nat.iter n (Turn 1) (m_camera app)) app
  /\ dispatch (held irr.KEY_RIGHT) app
     = with_camera (Nat.iter n (Turn (-1)) (m_camera app)) app
  /\ forall s : State,
      dispatch (held (mode_key s)) app
      = with_camera (SetState s (m_camera app)) app.
Proof.
  cbv zeta.
  assert (Arrow : forall key command,
             (forall a : App,
                 OnEvent (key_event_with char shift control key true) a
                 = (true, with_camera (command (m_camera a)) a)) ->
             (forall a : App,
                 OnEvent (key_event_with char shift control key false) a
                 = (false, a)) ->
             dispatch (repeat (key_event_with char shift control key true) n
                       ++ [key_event_with char shift control key false]) app
             = with_camera (Nat.iter n command (m_camera app)) app).
  { intros key command Hp Hr. rewrite dispatch_app.
    rewrite (dispatch_presses key command char shift control Hp).
    unfold dispatch. cbn [fold_left]. rewrite Hr. reflexivity. }
  split; [apply Arrow; reflexivity |].
  split; [apply Arrow; reflexivity |].
  split; [apply Arrow; reflexivity |].
  split; [apply Arrow; reflexivity |].
  intro s. rewrite dispatch_app.
  assert (Idle : forall (k : nat) (a : App),
             dispatch (repeat (key_event_with char shift control (mode_key s) true) k) a
             = a).
  { induction k as [| k IHk]; intro a; [reflexivity |].
    cbn [repeat]. change (?e :: ?l) with ([e] ++ l). rewrite dispatch_app.
    rewrite IHk. destruct s; reflexivity. }
  rewrite Idle. destruct s; reflexivity.
Qed.

End MoreApplicationFacts.

(** ** The sound over several frames *)

Section SoundFacts.

Context {Body Cam Veh Ptr : Type}.
Context `{CamControl : ChChaseCameraControl Cam}.
Context `{CamDynamics : ChChaseCameraDynamics Body Cam}.
Context `{Vehicle : ChVehicle Body Veh}.
Context `{Powertrain : ChPowertrain Ptr}.

Variable GetChronoDataFile : string -> string.

Local Notation "'App'" := (ChVehicleIrrApp Cam Veh Ptr).

(** The speed [Advance] computes for the sound. *)
Local Notation "'speed_of' app" :=
  (let s := GetMotorSpeed (m_powertrain app) * 60 / CH_C_2PI / 8000 in
   if ltb s 0.1 then 0.1 else s) (at level 10, app at level 9).

(** After [n] calls of [Advance] on one application with a sound, the
    counter has counted them modulo 21 and the sound was written as soon as
    the count passed 20. *)
Lemma Advance_repeat_sound (fuel : nat) (step : double) (n : nat) :
  forall (app : App) (counter : Z) (snd : irrklang.ISound),
    m_car_sound app = Some snd ->
    0 < m_stepsize app ->
    (Z.to_nat (Qceiling (step / m_stepsize app)) <= fuel)%nat ->
    (0 <= counter <= 20)%Z ->
    exists (app' : App) (counter' : Z),
      Advance_repeat n fuel step app counter = Some (app', counter')
      /\ counter' = ((counter + Z.of_nat n) mod 21)%Z
      /\ m_car_sound app'
         = (if (counter + Z.of_nat n <? 21)%Z
            then Some snd
            else Some (irrklang.mkISound false (speed_of app))).
Proof.
  induction n as [| n IH]; intros app counter snd Hs Hm Hfuel Hc.
  - exists app, counter. split; [reflexivity |].
    split; [rewrite Z.add_0_r, Z.mod_small; lia |].
    rewrite Z.add_0_r. destruct (Z.ltb_spec counter 21); [exact Hs | lia].
  - destruct (Advance_returns fuel step app counter Hm Hfuel) as (cam & HA).
    set (X := Advance_render (with_camera cam app)) in *.
    pose proof (Advance_sound_spec X counter snd Hs) as Hspec.
    cbn [Advance_repeat]. rewrite HA.
    destruct (Z.ltb_spec 20 (counter + 1)) as [Hgt | Hle]; rewrite Hspec.
    + set (S1 := irrklang.mkISound false (speed_of X)).
      destruct (IH (with_car_sound (Some S1) X) 0%Z S1 eq_refl Hm Hfuel
                   ltac:(lia)) as (app' & counter' & HR & Hcnt & Hsnd).
      exists app', counter'. split; [exact HR |]. split.
      * rewrite Hcnt. rewrite Nat2Z.inj_succ.
        replace (counter + Z.succ (Z.of_nat n))%Z with (Z.of_nat n + 1 * 21)%Z
          by lia.
        rewrite Z.mod_add by lia. reflexivity.
      * rewrite Hsnd.
        destruct (Z.ltb_spec (counter + Z.of_nat (S n)) 21); [lia |].
        destruct (0 + Z.of_nat n <? 21)%Z; reflexivity.
    + destruct (IH X (counter + 1)%Z snd Hs Hm Hfuel ltac:(lia))
        as (app' & counter' & HR & Hcnt & Hsnd).
      exists app', counter'. split; [exact HR |]. split.
      * rewrite Hcnt. f_equal. lia.
      * rewrite Hsnd. replace (counter + 1 + Z.of_nat n)%Z
          with (counter + Z.of_nat (S n))%Z by lia.
        reflexivity.
Qed.

(** X7: on an application with a sound, a positive [m_stepsize] and enough
    fuel, [n] successive calls of [Advance] return and leave the static
    counter, started anywhere in 0..20, at the count modulo 21: the playback
    speed is written on every 21st call, 21 and not 20 calls apart.  The
    sound is untouched before the count passes 20 and is unpaused with the
    clamped speed from then on. *)
Theorem sound_update_period (fuel n : nat) (step : double) (app : App)
        (counter : Z) (snd : irrklang.ISound) :
  m_car_sound app = Some snd ->
  0 < m_stepsize app ->
  (Z.to_nat (Qceiling (step / m_stepsize app)) <= fuel)%nat ->
  (0 <= counter <= 20)%Z ->
  exists (app' : App) (counter' : Z),
    Advance_repeat n fuel step app counter = Some (app', counter')
    /\ counter' = ((counter + Z.of_nat n) mod 21)%Z
    /\ (0 <= counter' <= 20)%Z
    /\ m_car_sound app'
       = (if (counter + Z.of_nat n <? 21)%Z
          then Some snd
          else Some (irrklang.mkISound false (speed_of app))).
Proof.
  intros Hs Hm Hfuel Hc.
  destruct (Advance_repeat_sound fuel step n app counter snd Hs Hm Hfuel Hc)
    as (app' & counter' & HR & Hcnt & Hsnd).
  exists app', counter'. repeat split; auto; rewrite Hcnt.
  - apply Z.mod_pos_bound. lia.
  - pose proof (Z.mod_pos_bound (counter + Z.of_nat n) 21 ltac:(lia)). lia.
Qed.

(** X8: after [EnableSound (true)] has found a device and a sound, the sound
    is paused, whatever [play2D] returned, and it stays paused while the
    static counter, found at [counter] in 0..20, has not passed 20: the first
    [20 - counter] calls of [Advance] leave it paused, and after
    [21 - counter] calls it plays at a speed of at least 0.1. *)
Theorem EnableSound_starts_paused (created : ISoundEngine)
        (played : irrklang.ISound) (app : App) (fuel : nat) (step : double)
        (counter : Z) :
  play2D created (GetChronoDataFile "carsound.ogg") true false true
  = Some played ->
  0 < m_stepsize app ->
  (Z.to_nat (Qceiling (step / m_stepsize app)) <= fuel)%nat ->
  (0 <= counter <= 20)%Z ->
  exists app1 : App,
    EnableSound GetChronoDataFile true (Some created) app
    = Some (Some created, app1, [])
    /\ m_car_sound app1
       = Some (irrklang.mkISound true (irrklang.PlaybackSpeed played))
    /\ (forall n : nat,
           (Z.of_nat n <= 20 - counter)%Z ->
           exists app2 counter2,
             Advance_repeat n fuel step app1 counter = Some (app2, counter2)
             /\ m_car_sound app2 = m_car_sound app1)
    /\ (exists app2 (speed : double),
           Advance_repeat (Z.to_nat (21 - counter)) fuel step app1 counter
           = Some (app2, 0%Z)
           /\ 0.1 <= speed
           /\ m_car_sound app2 = Some (irrklang.mkISound false speed)).
Proof.
  intros Hplay Hm Hfuel Hc.
  set (snd1 := irrklang.mkISound true (irrklang.PlaybackSpeed played)).
  exists (with_car_sound (Some snd1) app).
  split; [unfold EnableSound; rewrite Hplay; reflexivity |].
  split; [reflexivity |]. split.
  - intros n Hn.
    destruct (Advance_repeat_sound fuel step n (with_car_sound (Some snd1) app)
                                   counter snd1 eq_refl Hm Hfuel Hc)
      as (app2 & counter2 & HR & _ & Hsnd).
    exists app2, counter2. split; [exact HR |].
    rewrite Hsnd. destruct (Z.ltb_spec (counter + Z.of_nat n) 21);
      [reflexivity | lia].
  - destruct (Advance_repeat_sound fuel step (Z.to_nat (21 - counter))
                                   (with_car_sound (Some snd1) app)
                                   counter snd1 eq_refl Hm Hfuel Hc)
      as (app2 & counter2 & HR & Hcnt & Hsnd).
    rewrite Z2Nat.id in Hcnt, Hsnd by lia.
    replace (counter + (21 - counter))%Z with 21%Z in Hcnt, Hsnd by lia.
    change (21 mod 21)%Z with 0%Z in Hcnt. subst counter2.
    change (21 <? 21)%Z with false in Hsnd.
    exists app2. eexists. split; [exact HR |].
    split; [| exact Hsnd]. apply clamped_speed_ge.
Qed.

(** X9: the two failures of [EnableSound (true)].  Without a device the
    application is left as it was and one line of 36 characters, the last of
    them the end of line, is logged; a sound enabled before stays in
    [m_car_sound], where the sound block of [Advance] goes on writing to it
    although [m_sound_engine] is now null.  With a device whose [play2D]
    returns null, [setIsPaused] is called through the null pointer. *)
Theorem EnableSound_failures (app : App) :
  (exists line : string,
      EnableSound GetChronoDataFile true None app = Some (None, app, [line])
      /\ line = ("Cannot start sound engine Irrklang " ++ newline)%string
      /\ String.length line = 36%nat
      /\ String.get 35 line = Some "010"%char)
  /\ (forall snd : irrklang.ISound,
         m_car_sound app = Some snd ->
         exists (app1 : App) (log : list string) (speed : double),
           EnableSound GetChronoDataFile true None app = Some (None, app1, log)
           /\ m_car_sound app1 = Some snd
           /\ 0.1 <= speed
           /\ Advance_sound app1 20
              = (with_car_sound (Some (irrklang.mkISound false speed)) app1, 0%Z))
  /\ (forall created : ISoundEngine,
         play2D created (GetChronoDataFile "carsound.ogg") true false true = None ->
         EnableSound GetChronoDataFile true (Some created) app = None).
Proof.
  split; [| split].
  - eexists. split; [reflexivity |]. repeat split.
  - intros snd Hs. exists app. eexists. eexists.
    split; [reflexivity |]. split; [exact Hs |].
    split; [| exact (Advance_sound_spec app 20 snd Hs)].
    apply clamped_speed_ge.
  - intros created Hplay. unfold EnableSound. rewrite Hplay. reflexivity.
Qed.

(** ** The settings on reachable applications *)

Lemma Advance_settings (fuel : nat) (step : double) (app app' : App)
      (counter counter' : Z) :
  Advance fuel step app counter = Some (app', counter') ->
  m_stepsize app' = m_stepsize app
  /\ m_HUD_x app' = m_HUD_x app /\ m_HUD_y app' = m_HUD_y app
  /\ m_renderGrid app' = m_renderGrid app
  /\ m_renderLinks app' = m_renderLinks app
  /\ m_renderSprings app' = m_renderSprings app
  /\ m_renderStats app' = m_renderStats app
  /\ m_gridHeight app' = m_gridHeight app.
Proof.
  unfold Advance.
  destruct (Advance_loop _ _ _ _ _ _) as [[t cam] |]; [| discriminate].
  unfold Advance_sound, Advance_render.
  cbn [m_car_sound with_active_camera with_camera m_powertrain].
  destruct (m_car_sound app) as [snd |].
  - destruct (20 <? counter + 1)%Z; intro E; injection E as <- <-;
      cbn; repeat split.
  - intro E; injection E as <- <-; cbn; repeat split.
Qed.

Lemma EnableSound_settings (sound : bool) (created : option ISoundEngine)
      (app app' : App) (engine : option ISoundEngine) (log : list string) :
  EnableSound GetChronoDataFile sound created app = Some (engine, app', log) ->
  m_stepsize app' = m_stepsize app
  /\ m_HUD_x app' = m_HUD_x app /\ m_HUD_y app' = m_HUD_y app
  /\ m_renderGrid app' = m_renderGrid app
  /\ m_renderLinks app' = m_renderLinks app
  /\ m_renderSprings app' = m_renderSprings app
  /\ m_renderStats app' = m_renderStats app
  /\ m_gridHeight app' = m_gridHeight app.
Proof.
  unfold EnableSound. destruct sound.
  - destruct created as [e |].
    + destruct (play2D e _ _ _ _); [| discriminate].
      intro E; injection E as _ <- _; cbn; repeat split.
    + intro E; injection E as _ <- _; repeat split.
  - intro E; injection E as _ <- _; cbn; repeat split.
Qed.

(** X10: no function of the translation unit writes the settings: on every
    application reachable from the constructor through [OnEvent],
    [SetChaseCamera], [EnableSound] and [Advance], with the simulation moving
    the vehicle and the powertrain in between, [m_stepsize] is 1/1000, the
    HUD is at (740, 20), the four render flags are set and the grid height
    is 1/50. *)
Theorem reachable_settings (app : App) :
  reachable GetChronoDataFile app ->
  m_stepsize app = 1e-3
  /\ m_HUD_x app = 740%Z /\ m_HUD_y app = 20%Z
  /\ m_renderGrid app = true /\ m_renderLinks app = true
  /\ m_renderSprings app = true /\ m_renderStats app = true
  /\ m_gridHeight app = 0.02.
Proof.
  intro Hr.
  induction Hr as [car pt | car pt app _ IH | event app _ IH
                   | p d h app _ IH
                   | sound created app app' engine log _ IH HE
                   | fuel step app app' counter counter' _ IH HA].
  - repeat split.
  - exact IH.
  - destruct (OnEvent_shape event app) as [-> | [[cam ->] | ->]]; exact IH.
  - exact IH.
  - destruct (EnableSound_settings _ _ _ _ _ _ HE)
      as (-> & -> & -> & -> & -> & -> & -> & ->). exact IH.
  - destruct (Advance_settings _ _ _ _ _ _ HA)
      as (-> & -> & -> & -> & -> & -> & -> & ->). exact IH.
Qed.

End SoundFacts.

(** ** The gauges *)

Lemma int_of_double_nonneg (x : Q) :
  0 <= x -> int_of_double x = Qfloor x.
Proof.
  intro Hx. unfold int_of_double, Qfloor. destruct x as [n d].
  apply Z.quot_div_nonneg; [| reflexivity].
  unfold Qle in Hx. simpl in Hx. lia.
Qed.

Lemma int_of_double_between (x : Q) (a b : Z) :
  (0 <= a)%Z -> inject_Z a <= x -> x <= inject_Z b ->
  (a <= int_of_double x <= b)%Z.
Proof.
  intros Ha Hl Hu.
  assert (H0 : 0 <= x).
  { apply Qle_trans with (inject_Z a); [| exact Hl].
    change 0 with (inject_Z 0). rewrite <- Zle_Qle. exact Ha. }
  rewrite (int_of_double_nonneg x H0). split.
  - apply Qfloor_resp_le in Hl. rewrite Qfloor_Z in Hl. exact Hl.
  - apply Qfloor_resp_le in Hu. rewrite Qfloor_Z in Hu. exact Hu.
Qed.

Lemma int_of_double_mono (x y : Q) :
  x <= y -> (int_of_double x <= int_of_double y)%Z.
Proof.
  intro Hxy. unfold int_of_double. destruct x as [n d], y as [m e].
  unfold Qle in Hxy. simpl in *.
  rewrite <- (Z.quot_mul_cancel_r n (Zpos d) (Zpos e)) by lia.
  rewrite <- (Z.quot_mul_cancel_r m (Zpos e) (Zpos d)) by lia.
  rewrite (Z.mul_comm (Zpos e) (Zpos d)).
  apply Z.quot_le_mono; lia.
Qed.

Lemma int_of_double_Z (x : Q) (n : Z) : x == inject_Z n -> int_of_double x = n.
Proof.
  intro E. destruct (Z.le_gt_cases 0 n) as [Hn | Hn].
  - assert (H : (n <= int_of_double x <= n)%Z).
    { apply int_of_double_between; [exact Hn | |]; rewrite E; apply Qle_refl. }
    lia.
  - unfold int_of_double. destruct x as [m d].
    unfold Qeq in E. simpl in E. rewrite Z.mul_1_r in E. subst m.
    apply Z.quot_mul. lia.
Qed.

(** X11: a gauge that is not symmetric, of length at least 4 and height at
    least 4, drawn for a factor between 0 and 1: its bar lies in its box, two
    pixels inside the border, from the left edge to a right edge that grows
    with the factor up to the factor 1; at factor 0 the bar is empty and at
    factor 1 it fills the width. *)
Theorem gauge_bar_in_box (msg : string) (factor : double)
        (xpos ypos length height : Z) :
  0 <= factor -> factor <= 1 -> (4 <= length)%Z -> (4 <= height)%Z ->
  exists box bar : video.rect,
    boxes (renderLinGauge msg factor false xpos ypos length height) = [box]
    /\ bars (renderLinGauge msg factor false xpos ypos length height) = [bar]
    /\ box = video.mkrect xpos ypos (xpos + length) (ypos + height)
    /\ inside 2 bar box
    /\ video.ULx bar = (xpos + 2)%Z
    /\ (factor == 0 -> video.LRx bar = (xpos + 2)%Z)
    /\ (factor == 1 -> video.LRx bar = (xpos + length - 2)%Z)
    /\ (forall (factor' : double) (bar' : video.rect),
           factor <= factor' -> factor' <= 1 ->
           bars (renderLinGauge msg factor' false xpos ypos length height)
           = [bar'] ->
           (video.LRx bar <= video.LRx bar')%Z).
Proof.
  intros H0 H1 HL HH.
  set (right := int_of_double (inject_Z (length - 4) * factor + 2)).
  assert (Hr : (2 <= right <= length - 2)%Z).
  { subst right.
    assert (HLq : 0 <= inject_Z (length - 4)).
    { change 0 with (inject_Z 0). rewrite <- Zle_Qle. lia. }
    apply int_of_double_between; [lia | |].
    - change (inject_Z 2) with 2. nra.
    - replace (length - 2)%Z with ((length - 4) + 2)%Z by lia.
      rewrite inject_Z_plus. change (inject_Z 2) with 2. nra. }
  exists (video.mkrect xpos ypos (xpos + length) (ypos + height)),
    (video.mkrect (xpos + 2) (ypos + 2) (xpos + right) (ypos + height - 2)).
  split; [reflexivity |]. split; [reflexivity |]. split; [reflexivity |].
  split; [unfold inside; cbn; lia |]. split; [reflexivity |].
  split; [| split].
  - intro E. cbn. f_equal. subst right. apply int_of_double_Z.
    rewrite E. change (inject_Z 2) with 2. ring.
  - intro E. cbn. subst right.
    rewrite (int_of_double_Z _ (length - 2)); [lia |].
    rewrite E. replace (length - 2)%Z with ((length - 4) + 2)%Z by lia.
    rewrite inject_Z_plus. change (inject_Z 2) with 2. ring.
  - intros factor' bar' Hle _ Hbar'. cbn in Hbar'. injection Hbar' as <-.
    cbn. apply Zplus_le_compat_l. subst right. apply int_of_double_mono.
    assert (HLq : 0 <= inject_Z (length - 4)).
    { change 0 with (inject_Z 0). rewrite <- Zle_Qle. lia. }
    nra.
Qed.

Lemma std_min_ge (a b c : double) : c <= a -> c <= b -> c <= std_min a b.
Proof. intros Ha Hb. unfold std_min. destruct (ltb b a); assumption. Qed.

Lemma std_max_ge_l (a b : double) : a <= std_max a b.
Proof.
  unfold std_max. destruct (ltb a b) eqn:E.
  - apply ltb_lt in E. apply Qlt_le_weak, E.
  - apply Qle_refl.
Qed.

Lemma std_max_ge_r (a b : double) : b <= std_max a b.
Proof.
  unfold std_max. destruct (ltb a b) eqn:E.
  - apply Qle_refl.
  - apply ltb_ge in E. exact E.
Qed.

Lemma std_max_le (a b c : double) : a <= c -> b <= c -> std_max a b <= c.
Proof. intros Ha Hb. unfold std_max. destruct (ltb a b); assumption. Qed.

Lemma std_min_nonneg_zero (a : double) : 0 <= a -> std_min a 0.0 == 0.
Proof.
  intro Ha. unfold std_min. destruct (ltb 0.0 a) eqn:E; [reflexivity |].
  apply ltb_ge in E. assert (Z0 : 0.0 == 0) by reflexivity. lra.
Qed.

Lemma std_max_nonpos_zero (a : double) : a <= 0 -> std_max a 0.0 == 0.
Proof.
  intro Ha. unfold std_max. destruct (ltb a 0.0) eqn:E; [reflexivity |].
  apply ltb_ge in E. assert (Z0 : 0.0 == 0) by reflexivity. lra.
Qed.

(** X12: a symmetric gauge of length at least 4 and height at least 4, drawn
    for a factor between -1 and 1: its bar lies in its box, two pixels inside
    the border, and spans the middle column [xpos + length / 2]; it starts
    there for a factor that is not negative and ends there for one that is
    not positive. *)
Theorem gauge_sym_centred (msg : string) (factor : double)
        (xpos ypos length height : Z) :
  -1 <= factor -> factor <= 1 -> (4 <= length)%Z -> (4 <= height)%Z ->
  exists bar : video.rect,
    bars (renderLinGauge msg factor true xpos ypos length height) = [bar]
    /\ inside 2 bar (video.mkrect xpos ypos (xpos + length) (ypos + height))
    /\ (video.ULx bar <= xpos + Z.quot length 2 <= video.LRx bar)%Z
    /\ (0 <= factor -> video.ULx bar = (xpos + Z.quot length 2)%Z)
    /\ (factor <= 0 -> video.LRx bar = (xpos + Z.quot length 2)%Z).
Proof.
  intros Hlo Hhi HL HH.
  set (h := Z.quot length 2).
  assert (Hh : (2 <= h /\ 2 * h <= length)%Z).
  { subst h. rewrite Z.quot_div_nonneg by lia.
    pose proof (Z.div_mod length 2 ltac:(lia)).
    pose proof (Z.mod_pos_bound length 2 ltac:(lia)). lia. }
  assert (Hhq : 0 <= inject_Z (h - 2)).
  { change 0 with (inject_Z 0). rewrite <- Zle_Qle. lia. }
  assert (Z0 : 0.0 == 0) by reflexivity.
  assert (Hmin : -1 <= std_min factor 0.0 /\ std_min factor 0.0 <= 0).
  { pose proof (std_min_le_r factor 0.0).
    pose proof (std_min_ge factor 0.0 (-1) Hlo ltac:(lra)). lra. }
  assert (Hmax : 0 <= std_max factor 0.0 /\ std_max factor 0.0 <= 1).
  { pose proof (std_max_ge_r factor 0.0).
    pose proof (std_max_le factor 0.0 1 Hhi ltac:(lra)). lra. }
  set (left := int_of_double (inject_Z (h - 2) * std_min factor 0.0 + inject_Z h)).
  set (right := int_of_double (inject_Z (h - 2) * std_max factor 0.0 + inject_Z h)).
  assert (Hleft : (2 <= left <= h)%Z).
  { subst left. apply int_of_double_between; [lia | |].
    - replace (inject_Z h) with (inject_Z ((h - 2) + 2)) by (f_equal; lia).
      rewrite inject_Z_plus. change (inject_Z 2) with 2. nra.
    - nra. }
  assert (Hright : (h <= right <= 2 * h - 2)%Z).
  { subst right. apply int_of_double_between; [lia | |].
    - nra.
    - replace (2 * h - 2)%Z with ((h - 2) + h)%Z by lia.
      rewrite inject_Z_plus. nra. }
  exists (video.mkrect (xpos + left) (ypos + 2) (xpos + right) (ypos + height - 2)).
  split; [reflexivity |].
  split; [unfold inside; cbn; lia |].
  split; [cbn; lia |]. split.
  - intro Hf. cbn. f_equal. subst left. apply int_of_double_Z.
    rewrite (std_min_nonneg_zero factor Hf). ring.
  - intro Hf. cbn. f_equal. subst right. apply int_of_double_Z.
    rewrite (std_max_nonpos_zero factor Hf). ring.
Qed.

Lemma int_of_double_le (x : Q) (b : Z) :
  x <= inject_Z b -> (int_of_double x <= b)%Z.
Proof.
  intro H. rewrite <- (int_of_double_Z (inject_Z b) b) by reflexivity.
  apply int_of_double_mono, H.
Qed.

Lemma int_of_double_ge (x : Q) (a : Z) :
  inject_Z a <= x -> (a <= int_of_double x)%Z.
Proof.
  intro H. rewrite <- (int_of_double_Z (inject_Z a) a) at 1 by reflexivity.
  apply int_of_double_mono, H.
Qed.

(** X13: a gauge that is not symmetric, of length above 4, drawn for a
    factor outside 0..1; the clip rectangle handed along is the box.  For a
    factor from -1 on whose product with [length - 4] is at most -1 the right
    edge of the bar is left of its left edge, by at most [length - 4]: the
    rectangle handed to the driver is inverted.  For a factor between 1 and 2
    the bar reaches the last two pixels of the box or beyond, and at the
    factor 2 it ends at [xpos + 2 length - 6]. *)
Theorem gauge_out_of_range (msg : string) (factor : double)
        (xpos ypos length height : Z) :
  (4 < length)%Z ->
  exists bar : video.rect,
    renderLinGauge msg factor false xpos ypos length height
    = [ draw2DRectangle (video.mkSColor 90 60 60 60)
                        (video.mkrect xpos ypos (xpos + length) (ypos + height))
                        (video.mkrect xpos ypos (xpos + length) (ypos + height));
        draw2DRectangle (video.mkSColor 255 250 200 0) bar
                        (video.mkrect xpos ypos (xpos + length) (ypos + height));
        font_draw msg
                  (video.mkrect (xpos + 3) (ypos + 3) (xpos + length)
                                (ypos + height))
                  (video.mkSColor 255 20 20 20) ]
    /\ video.ULx bar = (xpos + 2)%Z
    /\ (-1 <= factor -> inject_Z (length - 4) * factor <= -1 ->
        inverted bar /\ (xpos + 6 - length <= video.LRx bar)%Z)
    /\ (1 <= factor -> factor <= 2 ->
        (xpos + length - 2 <= video.LRx bar <= xpos + 2 * length - 6)%Z)
    /\ (factor == 2 -> video.LRx bar = (xpos + 2 * length - 6)%Z).
Proof.
  intro HL.
  assert (HLq : 0 < inject_Z (length - 4)).
  { change 0 with (inject_Z 0). rewrite <- Zlt_Qlt. lia. }
  eexists. split; [reflexivity |]. split; [reflexivity |].
  split; [| split].
  - intros Hlo Hhi. unfold inverted. cbn.
    assert (Hr : (int_of_double (inject_Z (length - 4) * factor + 2)%Q <= 1)%Z).
    { apply int_of_double_le. change (inject_Z 1) with 1. lra. }
    assert (Hl : (6 - length
                  <= int_of_double (inject_Z (length - 4) * factor + 2)%Q)%Z).
    { apply int_of_double_ge.
      replace (6 - length)%Z with (- (length - 4) + 2)%Z by lia.
      rewrite inject_Z_plus, inject_Z_opp. change (inject_Z 2) with 2. nra. }
    lia.
  - intros Hlo Hhi. cbn [video.LRx].
    assert (Hl : (length - 2
                  <= int_of_double (inject_Z (length - 4) * factor + 2)%Q)%Z).
    { apply int_of_double_ge.
      replace (length - 2)%Z with ((length - 4) + 2)%Z by lia.
      rewrite inject_Z_plus. change (inject_Z 2) with 2. nra. }
    assert (Hr : (int_of_double (inject_Z (length - 4) * factor + 2)%Q
                  <= 2 * length - 6)%Z).
    { apply int_of_double_le.
      replace (2 * length - 6)%Z with (2 * (length - 4) + 2)%Z by lia.
      rewrite inject_Z_plus, inject_Z_mult. change (inject_Z 2) with 2. nra. }
    lia.
  - intro E. cbn [video.LRx].
    rewrite (int_of_double_Z _ (2 * length - 6)); [lia |].
    rewrite E.
    replace (2 * length - 6)%Z with (2 * (length - 4) + 2)%Z by lia.
    rewrite inject_Z_plus, inject_Z_mult. change (inject_Z 2) with 2. ring.
Qed.

(** ** The HUD *)

Lemma rectangles_app (color : video.SColor) (a b : list DrawCall) :
  rectangles color (a ++ b) = rectangles color a ++ rectangles color b.
Proof. unfold rectangles. apply flat_map_app. Qed.

Lemma texts_app (a b : list DrawCall) : texts (a ++ b) = texts a ++ texts b.
Proof. unfold texts. apply flat_map_app. Qed.

Lemma string_length_append (s1 s2 : string) :
  String.length (s1 ++ s2) = (String.length s1 + String.length s2)%nat.
Proof. induction s1 as [| c s1 IH]; cbn; [reflexivity | rewrite IH; reflexivity]. Qed.

Section HUDFacts.

Context {Body Cam Veh Ptr : Type}.
Context `{CamControl : ChChaseCameraControl Cam}.
Context `{CamDynamics : ChChaseCameraDynamics Body Cam}.
Context `{Vehicle : ChVehicle Body Veh}.
Context `{Powertrain : ChPowertrain Ptr}.
Context `{VehicleView : ChVehicleView Veh}.
Context `{PowertrainView : ChPowertrainView Ptr}.
Context `{Lib : Library}.

Local Notation "'App'" := (ChVehicleIrrApp Cam Veh Ptr).

Lemma gauge_then_Some (app : App) (text : string) (factor : double) (row : Z)
      (k : option (list DrawCall)) (calls : list DrawCall) :
  gauge_then app text factor row k = Some calls ->
  exists rest : list DrawCall,
    k = Some rest
    /\ calls = renderLinGauge text factor false (m_HUD_x app)
                              (m_HUD_y app + row) 120 15 ++ rest.
Proof.
  unfold gauge_then, sprintf_msg.
  destruct (String.length text <? 100)%nat; [| discriminate].
  destruct k as [rest |]; [| discriminate].
  intro E. injection E as <-. exists rest. split; reflexivity.
Qed.

Lemma gauge_then_None (app : App) (text : string) (factor : double) (row : Z) :
  gauge_then app text factor row None = None.
Proof. unfold gauge_then. destruct (sprintf_msg text); reflexivity. Qed.

(** The draw calls of the torque gauges, when the function returns. *)
Lemma renderStats_driveline_Some (app : App) (calls : list DrawCall) :
  renderStats_driveline app = Some calls ->
  boxes calls
  = map (row_box (m_HUD_x app) (m_HUD_y app))
        (driveline_rows (GetDriveline (m_car app)))
  /\ List.length calls
     = (3 * List.length (driveline_rows (GetDriveline (m_car app))))%nat.
Proof.
  unfold renderStats_driveline, driveline_rows.
  destruct (as_ChShaftsDriveline2WD _) as [d |].
  - destruct (nth_error _ 0) as [axle |]; [| discriminate].
    intro E.
    apply gauge_then_Some in E. destruct E as (r1 & E & ->).
    apply gauge_then_Some in E. destruct E as (r2 & E & ->).
    injection E as <-. split; reflexivity.
  - destruct (as_ChShaftsDriveline4WD _) as [d |].
    + destruct (nth_error _ 0) as [a0 |]; [| discriminate].
      destruct (nth_error _ 1) as [a1 |]; [| discriminate].
      intro E.
      apply gauge_then_Some in E. destruct E as (r1 & E & ->).
      apply gauge_then_Some in E. destruct E as (r2 & E & ->).
      apply gauge_then_Some in E. destruct E as (r3 & E & ->).
      apply gauge_then_Some in E. destruct E as (r4 & E & ->).
      injection E as <-. split; reflexivity.
    + intro E. injection E as <-. split; reflexivity.
Qed.

(** The shape of what [renderStats] returns. *)
Lemma renderStats_Some (app : App) (calls : list DrawCall) :
  renderStats app = Some calls ->
  exists (msg : string) (f1 f2 f3 f4 f5 f6 f7 : double)
         (t1 t2 t3 t4 t5 t6 t7 : string) (wheels : list DrawCall),
    let x := m_HUD_x app in
    let y := m_HUD_y app in
    renderStats_driveline app = Some wheels
    /\ f1 = GetVehicleSpeed (m_car app) / 30
    /\ calls
       = renderTextBox msg x y 120 15
         ++ renderLinGauge t1 f1 false x (y + 30) 120 15
         ++ renderLinGauge t2 f2 false x (y + 50) 120 15
         ++ renderLinGauge t3 f3 false x (y + 70) 120 15
         ++ renderLinGauge t4 f4 false x (y + 90) 120 15
         ++ renderLinGauge t5 f5 false x (y + 110) 120 15
         ++ renderLinGauge t6 f6 false x (y + 130) 120 15
         ++ renderLinGauge t7 f7 false x (y + 150) 120 15
         ++ wheels.
Proof.
  unfold renderStats.
  destruct (sprintf_msg _) as [msg |]; [| discriminate].
  match goal with
  | |- match ?g with _ => _ end = _ -> _ => destruct g as [gauges |] eqn:E
  end; [| discriminate].
  intro E'. injection E' as <-.
  apply gauge_then_Some in E. destruct E as (r1 & E & ->).
  apply gauge_then_Some in E. destruct E as (r2 & E & ->).
  apply gauge_then_Some in E. destruct E as (r3 & E & ->).
  apply gauge_then_Some in E. destruct E as (r4 & E & ->).
  apply gauge_then_Some in E. destruct E as (r5 & E & ->).
  apply gauge_then_Some in E. destruct E as (r6 & E & ->).
  apply gauge_then_Some in E. destruct E as (r7 & E & ->).
  do 16 eexists. split; [exact E |]. split; [reflexivity |].
  cbv zeta. reflexivity.
Qed.

(** X14: when [renderStats] returns, the grey boxes it has drawn are those
    of the rows 0, 30, 50, ..., 150 below [m_HUD_y], followed by the rows 170
    and 190 for a two-wheel shafts driveline, by the rows 210 to 270 for a
    four-wheel one (the rows 170 and 190 then stay empty) and by none for
    any other driveline; every box is 120 wide and 15 high at [m_HUD_x], and
    each ends above the top of all the later ones, so no two overlap.  There
    are three draw calls per gauge and two for the text box. *)
Theorem HUD_layout (app : App) (calls : list DrawCall) :
  renderStats app = Some calls ->
  let rows := common_rows ++ driveline_rows (GetDriveline (m_car app)) in
  boxes calls = map (row_box (m_HUD_x app) (m_HUD_y app)) rows
  /\ ForallOrdPairs above (boxes calls)
  /\ List.length calls = (3 * List.length rows - 1)%nat.
Proof.
  intro E. apply renderStats_Some in E.
  destruct E as (msg & f1 & f2 & f3 & f4 & f5 & f6 & f7
                 & t1 & t2 & t3 & t4 & t5 & t6 & t7 & wheels & Hw & _ & ->).
  destruct (renderStats_driveline_Some app wheels Hw) as (Hb & Hl).
  cbv zeta.
  assert (Hboxes : boxes
                     (renderTextBox msg (m_HUD_x app) (m_HUD_y app) 120 15
                      ++ renderLinGauge t1 f1 false (m_HUD_x app) (m_HUD_y app + 30) 120 15
                      ++ renderLinGauge t2 f2 false (m_HUD_x app) (m_HUD_y app + 50) 120 15
                      ++ renderLinGauge t3 f3 false (m_HUD_x app) (m_HUD_y app + 70) 120 15
                      ++ renderLinGauge t4 f4 false (m_HUD_x app) (m_HUD_y app + 90) 120 15
                      ++ renderLinGauge t5 f5 false (m_HUD_x app) (m_HUD_y app + 110) 120 15
                      ++ renderLinGauge t6 f6 false (m_HUD_x app) (m_HUD_y app + 130) 120 15
                      ++ renderLinGauge t7 f7 false (m_HUD_x app) (m_HUD_y app + 150) 120 15
                      ++ wheels)
                   = map (row_box (m_HUD_x app) (m_HUD_y app))
                         (common_rows
                          ++ driveline_rows (GetDriveline (m_car app)))).
  { unfold boxes in *. rewrite !rectangles_app, Hb, map_app.
    unfold common_rows, row_box. cbn [map]. cbn.
    rewrite Z.add_0_r. reflexivity. }
  split; [exact Hboxes |]. split.
  - rewrite Hboxes. unfold common_rows, driveline_rows.
    destruct (as_ChShaftsDriveline2WD _);
      [| destruct (as_ChShaftsDriveline4WD _)];
      cbn [map List.app]; repeat constructor; unfold above, row_box; cbn; lia.
  - rewrite !length_app, Hl. cbn. lia.
Qed.

Lemma renderStats_driveline_None (app : App) :
  renderStats_driveline app = None -> renderStats app = None.
Proof.
  intro E. unfold renderStats.
  destruct (sprintf_msg _); [| reflexivity].
  rewrite E. rewrite !gauge_then_None. reflexivity.
Qed.

(** X15: where [renderStats] leaves defined behaviour.  A state name of 87
    or more characters does not fit, after ["Camera mode: "], in the buffer
    of 100 characters.  A two-wheel shafts driveline without a driven axle,
    and a four-wheel one with fewer than two, have the vector of driven
    axles read past its end. *)
Theorem renderStats_undefined (app : App) :
  ((87 <= String.length (GetStateName (m_camera app)))%nat ->
   renderStats app = None)
  /\ (forall d : ShaftsDriveline,
         as_ChShaftsDriveline2WD (GetDriveline (m_car app)) = Some d ->
         GetDrivenAxleIndexes d = [] ->
         renderStats app = None)
  /\ (forall d : ShaftsDriveline,
         as_ChShaftsDriveline2WD (GetDriveline (m_car app)) = None ->
         as_ChShaftsDriveline4WD (GetDriveline (m_car app)) = Some d ->
         (List.length (GetDrivenAxleIndexes d) < 2)%nat ->
         renderStats app = None).
Proof.
  split; [| split].
  - intro Hlen. unfold renderStats, sprintf_msg.
    rewrite string_length_append.
    change (String.length "Camera mode: ") with 13%nat.
    destruct (Nat.ltb_spec (13 + String.length (GetStateName (m_camera app))) 100);
      [lia | reflexivity].
  - intros d H2 Hax. apply renderStats_driveline_None.
    unfold renderStats_driveline. rewrite H2, Hax. reflexivity.
  - intros d H2 H4 Hax. apply renderStats_driveline_None.
    unfold renderStats_driveline. rewrite H2, H4.
    destruct (GetDrivenAxleIndexes d) as [| a0 [| a1 l]]; cbn in *;
      [reflexivity | reflexivity | lia].
Qed.

(** X16: the texts of the four wheel torques of a four-wheel shafts
    driveline, in the order drawn: the torques of the left and right wheel of
    the first driven axle under the labels FL and FR, and those of the second
    driven axle under the labels RL and, again, FR.  No gauge carries a label
    RR. *)
Theorem four_wheel_labels (app : App) (calls : list DrawCall)
        (d : ShaftsDriveline) :
  as_ChShaftsDriveline2WD (GetDriveline (m_car app)) = None ->
  as_ChShaftsDriveline4WD (GetDriveline (m_car app)) = Some d ->
  renderStats app = Some calls ->
  exists axle0 axle1 : Z,
    nth_error (GetDrivenAxleIndexes d) 0 = Some axle0
    /\ nth_error (GetDrivenAxleIndexes d) 1 = Some axle1
    /\ skipn 8 (texts calls)
       = [ ("Torque wheel FL: "
              ++ format_plus_2f (GetWheelTorque d (mkChWheelID axle0 LEFT)))%string;
           ("Torque wheel FR: "
              ++ format_plus_2f (GetWheelTorque d (mkChWheelID axle0 RIGHT)))%string;
           ("Torque wheel RL: "
              ++ format_plus_2f (GetWheelTorque d (mkChWheelID axle1 LEFT)))%string;
           ("Torque wheel FR: "
              ++ format_plus_2f (GetWheelTorque d (mkChWheelID axle1 RIGHT)))%string ].
Proof.
  intros H2 H4 E. apply renderStats_Some in E.
  destruct E as (msg & f1 & f2 & f3 & f4 & f5 & f6 & f7
                 & t1 & t2 & t3 & t4 & t5 & t6 & t7 & wheels & Hw & _ & ->).
  unfold renderStats_driveline in Hw. rewrite H2, H4 in Hw.
  destruct (nth_error (GetDrivenAxleIndexes d) 0) as [a0 |]; [| discriminate].
  destruct (nth_error (GetDrivenAxleIndexes d) 1) as [a1 |]; [| discriminate].
  exists a0, a1. split; [reflexivity |]. split; [reflexivity |].
  apply gauge_then_Some in Hw. destruct Hw as (r1 & Hw & ->).
  apply gauge_then_Some in Hw. destruct Hw as (r2 & Hw & ->).
  apply gauge_then_Some in Hw. destruct Hw as (r3 & Hw & ->).
  apply gauge_then_Some in Hw. destruct Hw as (r4 & Hw & ->).
  injection Hw as <-. reflexivity.
Qed.

(** X17: the speed gauge is drawn as a gauge that is not symmetric, full at
    a speed of 30.  When [renderStats] returns, its bar is the first bar
    drawn; for a speed between 0 and 30 the bar lies in the box of the row
    30, two pixels inside the border, and for a speed between -30 and -1, as
    of a vehicle moving backwards, the bar is an inverted rectangle. *)
Theorem speed_gauge (app : App) (calls : list DrawCall) :
  renderStats app = Some calls ->
  exists (bar : video.rect) (rest : list video.rect),
    bars calls = bar :: rest
    /\ (0 <= GetVehicleSpeed (m_car app) ->
        GetVehicleSpeed (m_car app) <= 30 ->
        inside 2 bar (row_box (m_HUD_x app) (m_HUD_y app) 30))
    /\ (-30 <= GetVehicleSpeed (m_car app) ->
        GetVehicleSpeed (m_car app) <= -1 ->
        inverted bar).
Proof.
  intro E. apply renderStats_Some in E.
  destruct E as (msg & f1 & f2 & f3 & f4 & f5 & f6 & f7
                 & t1 & t2 & t3 & t4 & t5 & t6 & t7 & wheels & _ & Hf & ->).
  cbv zeta. unfold bars. rewrite !rectangles_app.
  eexists. eexists. split; [cbn [rectangles renderTextBox renderLinGauge flat_map
                                  SColor_eqb video.alpha video.red video.green
                                  video.blue Z.eqb Pos.eqb andb List.app];
                            reflexivity |].
  set (speed := GetVehicleSpeed (m_car app)) in *. subst f1.
  split.
  - intros H0 H30. unfold inside, row_box. cbn.
    assert (Hr : (2 <= int_of_double (inject_Z 116 * (speed / 30) + 2)%Q
                  <= 118)%Z).
    { apply int_of_double_between; [lia | |].
      - change (inject_Z 2) with 2. change (inject_Z 116) with 116.
        assert (0 <= speed / 30) by (apply Qle_shift_div_l; lra). lra.
      - change (inject_Z 118) with 118. change (inject_Z 116) with 116.
        assert (speed / 30 <= 1) by (apply Qle_shift_div_r; lra). lra. }
    lia.
  - intros _ Hneg. unfold inverted. cbn.
    assert (Hr : (int_of_double (inject_Z 116 * (speed / 30) + 2)%Q <= 1)%Z).
    { apply int_of_double_le.
      change (inject_Z 1) with 1. change (inject_Z 116) with 116.
      assert (speed / 30 <= - (1 # 30)).
      { apply Qle_shift_div_r; lra. }
      lra. }
    lia.
Qed.

End HUDFacts.

(** ** [DrawAll] *)

Section DrawFacts.

Context {Body Cam Veh Ptr : Type}.
Context `{CamControl : ChChaseCameraControl Cam}.
Context `{CamDynamics : ChChaseCameraDynamics Body Cam}.
Context `{Vehicle : ChVehicle Body Veh}.
Context `{Powertrain : ChPowertrain Ptr}.
Context `{VehicleView : ChVehicleView Veh}.
Context `{PowertrainView : ChPowertrainView Ptr}.
Context `{Lib : Library}.

Local Notation "'App'" := (ChVehicleIrrApp Cam Veh Ptr).

Lemma renderSprings_layer (links : list ChLink) :
  Forall (fun c => layer c = WorldLayer) (flat_map renderSprings_link links).
Proof.
  induction links as [| l links IH]; [constructor |].
  cbn [flat_map]. apply Forall_app. split; [| exact IH].
  unfold renderSprings_link.
  destruct (as_ChLinkSpring l) as [[p1 p2] |];
    [| destruct (as_ChLinkSpringCB l) as [[p1 p2] |]];
    repeat constructor.
Qed.

Lemma renderLinks_layer (links : list ChLink) :
  Forall (fun c => layer c = WorldLayer) (flat_map renderLinks_link links).
Proof.
  induction links as [| l links IH]; [constructor |].
  cbn [flat_map]. apply Forall_app. split; [| exact IH].
  unfold renderLinks_link.
  destruct (as_ChLinkDistance l) as [[p1 p2] |];
    [| destruct (as_ChLinkRevoluteSpherical l) as [[p1 p2] |]];
    repeat constructor.
Qed.

Lemma gauge_then_layer (app : App) (text : string) (factor : double) (row : Z)
      (k : option (list DrawCall)) (calls : list DrawCall) :
  (forall rest, k = Some rest -> Forall (fun c => layer c = HUDLayer) rest) ->
  gauge_then app text factor row k = Some calls ->
  Forall (fun c => layer c = HUDLayer) calls.
Proof.
  intros Hk E. apply gauge_then_Some in E. destruct E as (rest & -> & ->).
  apply Forall_app. split; [repeat constructor | apply Hk; reflexivity].
Qed.

Lemma renderStats_layer (app : App) (calls : list DrawCall) :
  renderStats app = Some calls -> Forall (fun c => layer c = HUDLayer) calls.
Proof.
  intro E. apply renderStats_Some in E.
  destruct E as (msg & f1 & f2 & f3 & f4 & f5 & f6 & f7
                 & t1 & t2 & t3 & t4 & t5 & t6 & t7 & wheels & Hw & _ & ->).
  cbv zeta. repeat (apply Forall_app; split; [repeat constructor |]).
  unfold renderStats_driveline in Hw.
  destruct (as_ChShaftsDriveline2WD _) as [d |].
  - destruct (nth_error _ 0); [| discriminate].
    revert Hw. apply gauge_then_layer. intros r1 E1. revert E1.
    apply gauge_then_layer. intros r2 E2. injection E2 as <-. constructor.
  - destruct (as_ChShaftsDriveline4WD _) as [d |].
    + destruct (nth_error _ 0); [| discriminate].
      destruct (nth_error _ 1); [| discriminate].
      revert Hw. apply gauge_then_layer. intros r1 E1. revert E1.
      apply gauge_then_layer. intros r2 E2. revert E2.
      apply gauge_then_layer. intros r3 E3. revert E3.
      apply gauge_then_layer. intros r4 E4. injection E4 as <-. constructor.
    + injection Hw as <-. constructor.
Qed.

Lemma renderSprings_kind (links : list ChLink) :
  Forall (fun c => is_drawSpring c = true) (flat_map renderSprings_link links).
Proof.
  induction links as [| l links IH]; [constructor |].
  cbn [flat_map]. apply Forall_app. split; [| exact IH].
  unfold renderSprings_link.
  destruct (as_ChLinkSpring l) as [[p1 p2] |];
    [| destruct (as_ChLinkSpringCB l) as [[p1 p2] |]];
    repeat constructor.
Qed.

Lemma renderLinks_kind (links : list ChLink) :
  Forall (fun c => is_drawSegment c = true) (flat_map renderLinks_link links).
Proof.
  induction links as [| l links IH]; [constructor |].
  cbn [flat_map]. apply Forall_app. split; [| exact IH].
  unfold renderLinks_link.
  destruct (as_ChLinkDistance l) as [[p1 p2] |];
    [| destruct (as_ChLinkRevoluteSpherical l) as [[p1 p2] |]];
    repeat constructor.
Qed.

(** X18: when [DrawAll] returns, its draw calls come in the order grid,
    scene, springs, link segments, HUD: at most one call draws the grid and
    only that call precedes the one call of [ChIrrAppInterface::DrawAll];
    the springs follow the scene, then the segments, and the rectangles and
    texts of the HUD come last, on top.  Each of the four parts is what its
    function draws when its flag is set and is empty when its flag is
    cleared, whatever the other flags are; with the four flags cleared the
    scene is all that is drawn. *)
Theorem DrawAll_order (app : App) (calls : list DrawCall) :
  DrawAll app = Some calls ->
  exists grid springs links hud : list DrawCall,
    calls = grid ++ [ChIrrAppInterface_DrawAll] ++ springs ++ links ++ hud
    /\ Forall (fun c => layer c = GridLayer) grid
    /\ (List.length grid <= 1)%nat
    /\ Forall (fun c => is_drawSpring c = true) springs
    /\ Forall (fun c => is_drawSegment c = true) links
    /\ Forall (fun c => layer c = WorldLayer) (springs ++ links)
    /\ Forall (fun c => layer c = HUDLayer) hud
    /\ (m_renderGrid app = true -> grid = renderGrid app)
    /\ (m_renderGrid app = false -> grid = [])
    /\ (m_renderSprings app = true -> springs = renderSprings app)
    /\ (m_renderSprings app = false -> springs = [])
    /\ (m_renderLinks app = true -> links = renderLinks app)
    /\ (m_renderLinks app = false -> links = [])
    /\ (m_renderStats app = true -> renderStats app = Some hud)
    /\ (m_renderStats app = false -> hud = [])
    /\ (m_renderGrid app = false -> m_renderSprings app = false ->
        m_renderLinks app = false -> m_renderStats app = false ->
        calls = [ChIrrAppInterface_DrawAll]).
Proof.
  unfold DrawAll.
  destruct (if m_renderStats app then renderStats app else Some [])
    as [stats |] eqn:Es; [| discriminate].
  intro E. injection E as <-.
  exists (if m_renderGrid app then renderGrid app else []),
    (if m_renderSprings app then renderSprings app else []),
    (if m_renderLinks app then renderLinks app else []),
    stats.
  split; [reflexivity |].
  split; [destruct (m_renderGrid app); repeat constructor |].
  split; [destruct (m_renderGrid app); cbn; lia |].
  split; [destruct (m_renderSprings app);
          [apply renderSprings_kind | constructor] |].
  split; [destruct (m_renderLinks app);
          [apply renderLinks_kind | constructor] |].
  split.
  { apply Forall_app. split.
    - destruct (m_renderSprings app); [apply renderSprings_layer | constructor].
    - destruct (m_renderLinks app); [apply renderLinks_layer | constructor]. }
  assert (Hhud : m_renderStats app = false -> stats = []).
  { intro Hs. rewrite Hs in Es. injection Es as <-. reflexivity. }
  split.
  { destruct (m_renderStats app).
    - apply renderStats_layer with (app := app). exact Es.
    - rewrite Hhud by reflexivity. constructor. }
  split; [intros ->; reflexivity |].
  split; [intros ->; reflexivity |].
  split; [intros ->; reflexivity |].
  split; [intros ->; reflexivity |].
  split; [intros ->; reflexivity |].
  split; [intros ->; reflexivity |].
  split; [intro Hs; rewrite Hs in Es; exact Es |].
  split; [exact Hhud |].
  intros -> -> -> Hs. rewrite (Hhud Hs). reflexivity.
Qed.

Lemma renderSprings_length (links : list ChLink) :
  List.length (flat_map renderSprings_link links)
  = List.length (filter is_spring links).
Proof.
  induction links as [| l links IH]; [reflexivity |].
  cbn [flat_map filter]. rewrite length_app, IH.
  assert (H1 : List.length (renderSprings_link l)
               = if is_spring l then 1%nat else 0%nat).
  { unfold renderSprings_link, is_spring.
    destruct (as_ChLinkSpring l) as [[p1 p2] |];
      [| destruct (as_ChLinkSpringCB l) as [[p1 p2] |]]; reflexivity. }
  rewrite H1. destruct (is_spring l); reflexivity.
Qed.

Lemma renderLinks_length (links : list ChLink) :
  List.length (flat_map renderLinks_link links)
  = List.length (filter is_drawn_link links).
Proof.
  induction links as [| l links IH]; [reflexivity |].
  cbn [flat_map filter]. rewrite length_app, IH.
  assert (H1 : List.length (renderLinks_link l)
               = if is_drawn_link l then 1%nat else 0%nat).
  { unfold renderLinks_link, is_drawn_link.
    destruct (as_ChLinkDistance l) as [[p1 p2] |];
      [| destruct (as_ChLinkRevoluteSpherical l) as [[p1 p2] |]]; reflexivity. }
  rewrite H1. destruct (is_drawn_link l); reflexivity.
Qed.

(** X19: [renderSprings] draws one spring for every link that casts to
    [ChLinkSpring] or to [ChLinkSpringCB], one also for a link that casts to
    both, and nothing for the other links; [renderLinks] draws one segment
    for every link that casts to [ChLinkDistance] or to
    [ChLinkRevoluteSpherical].  Neither draws more calls than there are
    links. *)
Theorem render_links_count (app : App) :
  let links := Get_linklist (m_car app) in
  List.length (renderSprings app) = List.length (filter is_spring links)
  /\ List.length (renderLinks app) = List.length (filter is_drawn_link links)
  /\ (List.length (renderSprings app) <= List.length links)%nat
  /\ (List.length (renderLinks app) <= List.length links)%nat.
Proof.
  cbv zeta. unfold renderSprings, renderLinks.
  rewrite renderSprings_length, renderLinks_length.
  split; [reflexivity |]. split; [reflexivity |].
  split; apply filter_length_le.
Qed.

End DrawFacts.

(** ** The further theorems at concrete inputs *)

Lemma Advance_update_count_witness :
  0 < 1 # 400 /\ m_stepsize Probe.app0 < 1 # 400
  /\ Advance 1 (1 # 400) Probe.app0 0 = None
  /\ forall (fuel : nat) app' (counter' : Z),
      Advance fuel (1 # 400) Probe.app0 0 = Some (app', counter') ->
      exists n : nat,
        (2 <= n)%nat
        /\ m_camera app'
           = Nat.iter n (Update (GetChassis (m_car Probe.app0)) (1 # 400))
                      (m_camera Probe.app0).
Proof.
  assert (Hs : 0 < 1 # 400) by reflexivity.
  assert (Hm : m_stepsize Probe.app0 < 1 # 400) by reflexivity.
  split; [exact Hs |]. split; [exact Hm |].
  exact (proj2 (Advance_update_count (1 # 400) Probe.app0 0 Hs) Hm).
Defined.

Lemma Advance_stalls_witness :
  m_stepsize Scene.app_zero_stepsize <= 0 /\ 0 < 1
  /\ forall fuel : nat, Advance fuel 1 Scene.app_zero_stepsize 0 = None.
Proof.
  assert (Hm : m_stepsize Scene.app_zero_stepsize <= 0)
    by (vm_compute; discriminate).
  assert (Hs : 0 < 1) by reflexivity.
  split; [exact Hm |]. split; [exact Hs |].
  exact (Advance_stalls 1 Scene.app_zero_stepsize 0 Hm Hs).
Defined.

Lemma Advance_frame_witness :
  let r := Fixture.result (Probe.app_sound, 0%Z) (Advance 0 0 Probe.app_sound 20) in
  Advance 0 0 Probe.app_sound 20 = Some (fst r, snd r)
  /\ m_car (fst r) = m_car Probe.app_sound
  /\ m_stepsize (fst r) = m_stepsize Probe.app_sound
  /\ (m_car_sound Probe.app_sound <> None -> m_car_sound (fst r) <> None).
Proof.
  cbv zeta.
  assert (HA : Advance 0 0 Probe.app_sound 20
               = Some (fst (Fixture.result (Probe.app_sound, 0%Z)
                                           (Advance 0 0 Probe.app_sound 20)),
                       snd (Fixture.result (Probe.app_sound, 0%Z)
                                           (Advance 0 0 Probe.app_sound 20))))
    by reflexivity.
  split; [exact HA |].
  pose proof (Advance_frame 0 0 Probe.app_sound _ 20 _ HA)
    as (Hcar & _ & Hsz & _ & _ & _ & _ & _ & _ & _ & _ & _ & Hsnd).
  split; [exact Hcar |]. split; [exact Hsz | exact Hsnd].
Defined.

Lemma sound_update_period_witness :
  m_car_sound Probe.app_sound = Some Probe.sound0
  /\ 0 < m_stepsize Probe.app_sound
  /\ (Z.to_nat (Qceiling (0 / m_stepsize Probe.app_sound)) <= 0)%nat
  /\ (0 <= 0 <= 20)%Z
  /\ exists app' (counter' : Z),
      Advance_repeat 21 0 0 Probe.app_sound 0 = Some (app', counter')
      /\ counter' = 0%Z
      /\ (0 <= counter' <= 20)%Z
      /\ m_car_sound app' = Some (irrklang.mkISound false 0.1).
Proof.
  assert (Hs : m_car_sound Probe.app_sound = Some Probe.sound0) by reflexivity.
  assert (Hm : 0 < m_stepsize Probe.app_sound) by reflexivity.
  assert (Hf : (Z.to_nat (Qceiling (0 / m_stepsize Probe.app_sound)) <= 0)%nat)
    by (vm_compute; lia).
  assert (Hc : (0 <= 0 <= 20)%Z) by lia.
  split; [exact Hs |]. split; [exact Hm |]. split; [exact Hf |].
  split; [exact Hc |].
  exact (sound_update_period 0 21 0 Probe.app_sound 0 Probe.sound0 Hs Hm Hf Hc).
Defined.

Lemma EnableSound_starts_paused_witness :
  play2D Scene.engine_ok (Scene.data_file "carsound.ogg") true false true
  = Some (irrklang.mkISound false 1)
  /\ 0 < m_stepsize Probe.app0
  /\ (Z.to_nat (Qceiling (0 / m_stepsize Probe.app0)) <= 0)%nat
  /\ (0 <= 19 <= 20)%Z
  /\ exists app1,
      EnableSound Scene.data_file true (Some Scene.engine_ok) Probe.app0
      = Some (Some Scene.engine_ok, app1, [])
      /\ m_car_sound app1 = Some (irrklang.mkISound true 1)
      /\ (forall n : nat,
             (Z.of_nat n <= 20 - 19)%Z ->
             exists app2 counter2,
               Advance_repeat n 0 0 app1 19 = Some (app2, counter2)
               /\ m_car_sound app2 = m_car_sound app1)
      /\ (exists app2 (speed : double),
             Advance_repeat (Z.to_nat (21 - 19)) 0 0 app1 19 = Some (app2, 0%Z)
             /\ 0.1 <= speed
             /\ m_car_sound app2 = Some (irrklang.mkISound false speed)).
Proof.
  assert (Hp : play2D Scene.engine_ok (Scene.data_file "carsound.ogg")
                      true false true
               = Some (irrklang.mkISound false 1)) by reflexivity.
  assert (Hm : 0 < m_stepsize Probe.app0) by reflexivity.
  assert (Hf : (Z.to_nat (Qceiling (0 / m_stepsize Probe.app0)) <= 0)%nat)
    by (vm_compute; lia).
  assert (Hc : (0 <= 19 <= 20)%Z) by lia.
  split; [exact Hp |]. split; [exact Hm |]. split; [exact Hf |].
  split; [exact Hc |].
  exact (EnableSound_starts_paused Scene.data_file Scene.engine_ok
           (irrklang.mkISound false 1) Probe.app0 0 0 19 Hp Hm Hf Hc).
Defined.

Lemma EnableSound_failures_witness :
  play2D Scene.engine_no_file (Scene.data_file "carsound.ogg") true false true
  = None
  /\ EnableSound Scene.data_file true (Some Scene.engine_no_file) Probe.app_sound
     = None
  /\ m_car_sound Probe.app_sound = Some Probe.sound0
  /\ exists (app1 : ChVehicleIrrApp Probe.Camera Probe.Car Probe.Engine)
            (log : list string) (speed : double),
      EnableSound Scene.data_file true None Probe.app_sound
      = Some (None, app1, log)
      /\ m_car_sound app1 = Some Probe.sound0
      /\ 0.1 <= speed
      /\ Advance_sound app1 20
         = (with_car_sound (Some (irrklang.mkISound false speed)) app1, 0%Z).
Proof.
  assert (Hp : play2D Scene.engine_no_file (Scene.data_file "carsound.ogg")
                      true false true = None) by reflexivity.
  assert (Hs : m_car_sound Probe.app_sound = Some Probe.sound0) by reflexivity.
  split; [exact Hp |]. split; [| split; [exact Hs |]].
  - exact (proj2 (proj2 (EnableSound_failures Scene.data_file Probe.app_sound))
                 Scene.engine_no_file Hp).
  - exact (proj1 (proj2 (EnableSound_failures Scene.data_file Probe.app_sound))
                 Probe.sound0 Hs).
Defined.

Lemma reachable_settings_witness :
  reachable Scene.data_file (snd (OnEvent (key_event irr.KEY_UP true) Probe.app0))
  /\ m_stepsize (snd (OnEvent (key_event irr.KEY_UP true) Probe.app0)) = 1e-3
  /\ m_renderStats (snd (OnEvent (key_event irr.KEY_UP true) Probe.app0)) = true.
Proof.
  assert (Hr : reachable Scene.data_file
                 (snd (OnEvent (key_event irr.KEY_UP true) Probe.app0))).
  { apply reach_OnEvent.
    exact (reach_new Scene.data_file Probe.car0 Probe.engine0). }
  split; [exact Hr |].
  pose proof (reachable_settings Scene.data_file _ Hr)
    as (Hm & _ & _ & _ & _ & _ & Hst & _).
  split; [exact Hm | exact Hst].
Defined.

Lemma gauge_bar_in_box_witness :
  0 <= 1 # 2 /\ 1 # 2 <= 1 /\ (4 <= 120)%Z /\ (4 <= 15)%Z
  /\ exists box bar : video.rect,
      boxes (renderLinGauge "Speed: +15.00" (1 # 2) false 740 50 120 15) = [box]
      /\ bars (renderLinGauge "Speed: +15.00" (1 # 2) false 740 50 120 15) = [bar]
      /\ inside 2 bar box.
Proof.
  assert (H0 : 0 <= 1 # 2) by (vm_compute; discriminate).
  assert (H1 : 1 # 2 <= 1) by (vm_compute; discriminate).
  assert (HL : (4 <= 120)%Z) by lia.
  assert (HH : (4 <= 15)%Z) by lia.
  split; [exact H0 |]. split; [exact H1 |]. split; [exact HL |].
  split; [exact HH |].
  destruct (gauge_bar_in_box "Speed: +15.00" (1 # 2) 740 50 120 15 H0 H1 HL HH)
    as (box & bar & Hb & Hbar & _ & Hin & _).
  exists box, bar. split; [exact Hb |]. split; [exact Hbar | exact Hin].
Defined.

Lemma gauge_sym_centred_witness :
  -1 <= - (1 # 2) /\ - (1 # 2) <= 1 /\ (4 <= 120)%Z /\ (4 <= 15)%Z
  /\ exists bar : video.rect,
      bars (renderLinGauge "Steering" (- (1 # 2)) true 740 50 120 15) = [bar]
      /\ inside 2 bar (video.mkrect 740 50 (740 + 120) (50 + 15))
      /\ (video.ULx bar <= 740 + Z.quot 120 2 <= video.LRx bar)%Z.
Proof.
  assert (H0 : -1 <= - (1 # 2)) by (vm_compute; discriminate).
  assert (H1 : - (1 # 2) <= 1) by (vm_compute; discriminate).
  assert (HL : (4 <= 120)%Z) by lia.
  assert (HH : (4 <= 15)%Z) by lia.
  split; [exact H0 |]. split; [exact H1 |]. split; [exact HL |].
  split; [exact HH |].
  destruct (gauge_sym_centred "Steering" (- (1 # 2)) 740 50 120 15 H0 H1 HL HH)
    as (bar & Hbar & Hin & Hmid & _).
  exists bar. split; [exact Hbar |]. split; [exact Hin | exact Hmid].
Defined.

Lemma gauge_out_of_range_witness :
  (4 < 120)%Z /\ -1 <= - (1 # 10) /\ inject_Z (120 - 4) * - (1 # 10) <= -1
  /\ exists bar : video.rect,
      bars (renderLinGauge "Speed: -3.00" (- (1 # 10)) false 740 50 120 15)
      = [bar]
      /\ inverted bar.
Proof.
  assert (HL : (4 < 120)%Z) by lia.
  assert (Hlo : -1 <= - (1 # 10)) by (vm_compute; discriminate).
  assert (Hhi : inject_Z (120 - 4) * - (1 # 10) <= -1)
    by (vm_compute; discriminate).
  split; [exact HL |]. split; [exact Hlo |]. split; [exact Hhi |].
  destruct (gauge_out_of_range "Speed: -3.00" (- (1 # 10)) 740 50 120 15 HL)
    as (bar & Hcalls & _ & Hinv & _).
  exists bar. split; [rewrite Hcalls; reflexivity |].
  exact (proj1 (Hinv Hlo Hhi)).
Defined.

Lemma HUD_layout_witness :
  let app := Fixture.hud_app "Chase" 15 (Fixture.four_wheel [0; 1]%Z) in
  let calls := Fixture.returned (renderStats app) in
  renderStats app = Some calls
  /\ boxes calls
     = map (row_box 740 20) [0; 30; 50; 70; 90; 110; 130; 150; 210; 230; 250; 270]%Z
  /\ ForallOrdPairs above (boxes calls)
  /\ List.length calls = 35%nat.
Proof.
  cbv zeta.
  assert (E : renderStats (Fixture.hud_app "Chase" 15 (Fixture.four_wheel [0; 1]%Z))
              = Some (Fixture.returned
                        (renderStats
                           (Fixture.hud_app "Chase" 15
                                            (Fixture.four_wheel [0; 1]%Z)))))
    by reflexivity.
  split; [exact E |].
  exact (HUD_layout _ _ E).
Defined.

Lemma renderStats_undefined_witness :
  (87 <= String.length Fixture.long_name)%nat
  /\ renderStats (Fixture.hud_app Fixture.long_name 15 (Fixture.two_wheel [0]%Z))
     = None
  /\ renderStats (Fixture.hud_app "Chase" 15 (Fixture.two_wheel [])) = None
  /\ renderStats (Fixture.hud_app "Chase" 15 (Fixture.four_wheel [0]%Z)) = None.
Proof.
  assert (Hn : (87 <= String.length Fixture.long_name)%nat) by (vm_compute; lia).
  split; [exact Hn |]. split; [| split].
  - exact (proj1 (renderStats_undefined
                    (Fixture.hud_app Fixture.long_name 15
                                     (Fixture.two_wheel [0]%Z))) Hn).
  - exact (proj1 (proj2 (renderStats_undefined
                           (Fixture.hud_app "Chase" 15 (Fixture.two_wheel []))))
                 (Fixture.shafts []) eq_refl eq_refl).
  - exact (proj2 (proj2 (renderStats_undefined
                           (Fixture.hud_app "Chase" 15
                                            (Fixture.four_wheel [0]%Z))))
                 (Fixture.shafts [0]%Z) eq_refl eq_refl (le_n 2)).
Defined.

Lemma four_wheel_labels_witness :
  let app := Fixture.hud_app "Chase" 15 (Fixture.four_wheel [0; 1]%Z) in
  let calls := Fixture.returned (renderStats app) in
  as_ChShaftsDriveline2WD (GetDriveline (m_car app)) = None
  /\ as_ChShaftsDriveline4WD (GetDriveline (m_car app))
     = Some (Fixture.shafts [0; 1]%Z)
  /\ renderStats app = Some calls
  /\ exists axle0 axle1 : Z,
      nth_error [0; 1]%Z 0 = Some axle0
      /\ nth_error [0; 1]%Z 1 = Some axle1
      /\ skipn 8 (texts calls)
         = [ "Torque wheel FL: +0.00"%string; "Torque wheel FR: +0.00"%string;
             "Torque wheel RL: +0.00"%string; "Torque wheel FR: +0.00"%string ].
Proof.
  cbv zeta.
  assert (E : renderStats (Fixture.hud_app "Chase" 15 (Fixture.four_wheel [0; 1]%Z))
              = Some (Fixture.returned
                        (renderStats
                           (Fixture.hud_app "Chase" 15
                                            (Fixture.four_wheel [0; 1]%Z)))))
    by reflexivity.
  split; [reflexivity |]. split; [reflexivity |]. split; [exact E |].
  exact (four_wheel_labels
           (Fixture.hud_app "Chase" 15 (Fixture.four_wheel [0; 1]%Z)) _
           (Fixture.shafts [0; 1]%Z) eq_refl eq_refl E).
Defined.

Lemma speed_gauge_witness :
  let app := Fixture.hud_app "Chase" (- (3)) (Fixture.two_wheel [0]%Z) in
  let calls := Fixture.returned (renderStats app) in
  renderStats app = Some calls
  /\ -30 <= GetVehicleSpeed (m_car app)
  /\ GetVehicleSpeed (m_car app) <= -1
  /\ exists (bar : video.rect) (rest : list video.rect),
      bars calls = bar :: rest /\ inverted bar.
Proof.
  cbv zeta.
  assert (E : renderStats (Fixture.hud_app "Chase" (- (3)) (Fixture.two_wheel [0]%Z))
              = Some (Fixture.returned
                        (renderStats
                           (Fixture.hud_app "Chase" (- (3))
                                            (Fixture.two_wheel [0]%Z)))))
    by reflexivity.
  assert (Hlo : -30 <= GetVehicleSpeed
                         (m_car (Fixture.hud_app "Chase" (- (3))
                                                 (Fixture.two_wheel [0]%Z))))
    by (vm_compute; discriminate).
  assert (Hhi : GetVehicleSpeed
                  (m_car (Fixture.hud_app "Chase" (- (3))
                                          (Fixture.two_wheel [0]%Z))) <= -1)
    by (vm_compute; discriminate).
  split; [exact E |]. split; [exact Hlo |]. split; [exact Hhi |].
  destruct (speed_gauge _ _ E) as (bar & rest & Hb & _ & Hinv).
  exists bar, rest. split; [exact Hb | exact (Hinv Hlo Hhi)].
Defined.

Lemma DrawAll_order_witness :
  let app := Fixture.hud_app_no_springs in
  let calls := Fixture.returned (DrawAll app) in
  DrawAll app = Some calls
  /\ m_renderSprings app = false
  /\ m_renderLinks app = true
  /\ exists grid springs links hud : list DrawCall,
      calls = grid ++ [ChIrrAppInterface_DrawAll] ++ springs ++ links ++ hud
      /\ Forall (fun c => layer c = GridLayer) grid
      /\ springs = []
      /\ links = renderLinks app
      /\ Forall (fun c => layer c = HUDLayer) hud.
Proof.
  cbv zeta.
  assert (E : DrawAll Fixture.hud_app_no_springs
              = Some (Fixture.returned (DrawAll Fixture.hud_app_no_springs)))
    by reflexivity.
  split; [exact E |]. split; [reflexivity |]. split; [reflexivity |].
  destruct (DrawAll_order _ _ E)
    as (grid & springs & links & hud & Hc & Hg & _ & _ & _ & _ & Hh
        & _ & _ & _ & Hs & Hl & _).
  exists grid, springs, links, hud.
  split; [exact Hc |]. split; [exact Hg |].
  split; [exact (Hs eq_refl) |]. split; [exact (Hl eq_refl) | exact Hh].
Defined.
